(** * SparseStore: the full-text retrieval facade of [onprem.ingest.stores.sparse]

    A shallow embedding of [src/onprem/ingest/stores/sparse.py] and of the part
    of the index engine (the [whoosh] package) and of the Python runtime that
    the store calls, followed by the properties of the store that the
    specification states.

    The engine is modelled at the level of its interface, as its
    documentation describes it: opening and creating an index in a storage,
    the limit and the page window of a search, the scored length and the
    length of its results, term and prefix queries, deleting documents in a
    writer and committing. What the engine does below that interface (text
    analysis, query parsing, scoring, highlighting) is taken as given: an
    indexed document carries the terms it was indexed under, and the parser
    is a parameter that turns a query text into a ranking of the documents.
    The embedding provider, [doc_from_dict] and the set-up of the embedding
    model, which live outside [sparse.py], are parameters as well.

    Conventions.
    - A Python [str] is a [string]; every [ascii] stands for one code point in
      the range 0..255.
    - A Python [int] is a [Z]; a finite [float] is a rational [Q].
    - A [dict] with string keys is a [gmap string _]; a dict that is iterated
      (the metadata of a document) is an association list in insertion order.
    - A method of the store is a computation in the monad [M]: it reads and
      writes an environment [Env] (the store object [self], the directories on
      disk, the in-memory storages, the warnings issued, the pending lines of
      standard input, the calls made to the embedding provider) and either
      returns a value or raises an exception; what was written before an
      exception stays written. *)

From Stdlib Require Import ZArith QArith List String Ascii Lia Bool.
From stdpp Require Import gmap strings list.
Import ListNotations.
Open Scope string_scope.
Open Scope Z_scope.

(** ** Python values *)

(** The values a metadata field or a stored field can hold. [VObj truth]
    stands for an object of any other type (a list, a dict, a date, ...), of
    which only the truth value is observed. *)
Inductive PyVal : Type :=
  | VNone
  | VBool (b : bool)
  | VInt (z : Z)
  | VFloat (q : Q)
  | VStr (s : string)
  | VObj (truth : bool).

(** [isinstance(v, bool)] *)
Definition isinstance_bool (v : PyVal) : bool :=
  match v with VBool _ => true | _ => false end.

(** [isinstance(v, str)] *)
Definition isinstance_str (v : PyVal) : bool :=
  match v with VStr _ => true | _ => false end.

(** [isinstance(v, (int, float))]: [bool] is a subclass of [int]. *)
Definition isinstance_int_float (v : PyVal) : bool :=
  match v with VBool _ | VInt _ | VFloat _ => true | _ => false end.

(** The truth value of [v] in a condition. *)
Definition truthy (v : PyVal) : bool :=
  match v with
  | VNone => false
  | VBool b => b
  | VInt z => negb (z =? 0)
  | VFloat q => negb (Qeq_bool q 0)
  | VStr s => negb (String.eqb s EmptyString)
  | VObj t => t
  end.

(** The truth value of a string: non-empty. *)
Definition str_truthy (s : string) : bool := negb (String.eqb s EmptyString).

(** The truth value of an [Optional[str]]. *)
Definition opt_str_truthy (o : option string) : bool :=
  match o with Some s => str_truthy s | None => false end.

(** ** Strings *)

(** [s.endswith(suffix)]: some tail of [s] is [suffix]. *)
Fixpoint endswith (s suffix : string) : bool :=
  String.eqb s suffix
  || match s with
     | EmptyString => false
     | String _ s' => endswith s' suffix
     end.

(** [s.startswith(prefix)] *)
Definition startswith (s prefix : string) : bool := String.prefix prefix s.

(** [s[:-1]] *)
Fixpoint drop_last (s : string) : string :=
  match s with
  | EmptyString => EmptyString
  | String c s' =>
      match s' with
      | EmptyString => EmptyString
      | String _ _ => String c (drop_last s')
      end
  end.

(** The line feed, code point 10, as a string. *)
Definition newline : string :=
  String (Ascii false true false true false false false false) EmptyString.

(** [k in names] for a list of strings. *)
Definition str_in (k : string) (names : list string) : bool :=
  existsb (String.eqb k) names.

(** *** The character classes of [re] on [str] patterns *)

Definition code (c : ascii) : N := N_of_ascii c.

Definition in_range (lo hi : N) (c : ascii) : bool :=
  ((lo <=? code c) && (code c <=? hi))%N.

(** [\w]: the alphanumeric code points and the underscore. *)
Definition is_word (c : ascii) : bool :=
  in_range 48 57 c || in_range 65 90 c || in_range 95 95 c
  || in_range 97 122 c || in_range 170 170 c || in_range 178 179 c
  || in_range 181 181 c || in_range 185 186 c || in_range 188 190 c
  || in_range 192 214 c || in_range 216 246 c || in_range 248 255 c.

(** [\s]: the whitespace code points. *)
Definition is_space (c : ascii) : bool :=
  in_range 9 13 c || in_range 28 32 c || in_range 133 133 c
  || in_range 160 160 c.

Definition qmark : ascii := "?"%char.
(** The double quote character, code point 34. *)
Definition dquote : ascii := Ascii false true false false false true false false.

(** The class of the pattern's second group: whitespace or a double quote. *)
Definition is_sep (c : ascii) : bool := is_space c || Ascii.eqb c dquote.

(** [re.sub] with the pattern: a word character (group 1), a question mark,
    then either a whitespace character or a double quote (group 2) or the end
    of the string; replaced by groups 1 and 2. The string is scanned from the
    left; where a word character is followed by a question mark and then by
    a separator, the question mark is dropped and the scan resumes after the
    separator; where the question mark ends the string it is dropped; any
    other character is copied and the scan moves one character on. *)
Fixpoint re_sub (s : string) : string :=
  match s with
  | EmptyString => EmptyString
  | String c tl =>
      match tl with
      | EmptyString => String c EmptyString
      | String q rest =>
          if is_word c && Ascii.eqb q qmark then
            match rest with
            | EmptyString => String c EmptyString
            | String d rest' =>
                if is_sep d then String c (String d (re_sub rest'))
                else String c (re_sub tl)
            end
          else String c (re_sub tl)
      end
  end.

(** The first character of a string. *)
Definition head_char (s : string) : option ascii :=
  match s with
  | EmptyString => None
  | String c _ => Some c
  end.

(** The pattern matches at a character [c] followed by [tl]: [c] is a word
    character, [tl] starts with a question mark, and what follows that is a
    separator or the end. *)
Definition removable_at (c : ascii) (tl : string) : bool :=
  match tl with
  | EmptyString => false
  | String q rest =>
      is_word c && Ascii.eqb q qmark
      && match head_char rest with
         | None => true
         | Some d => is_sep d
         end
  end.

(** Somewhere in the string the pattern matches. *)
Fixpoint has_removable (s : string) : bool :=
  match s with
  | EmptyString => false
  | String c tl => removable_at c tl || has_removable tl
  end.

(** The string without its question marks. *)
Fixpoint strip_qmarks (s : string) : string :=
  match s with
  | EmptyString => EmptyString
  | String c tl =>
      if Ascii.eqb c qmark then strip_qmarks tl else String c (strip_qmarks tl)
  end.

(** [SparseStore._preprocess_query] *)
Definition _preprocess_query (query : string) : string :=
  let query := if endswith query "?" then drop_last query else query in
  re_sub query.


(** ** Exceptions and the store monad *)

Inductive Exn : Type :=
  | ValueError (msg : string)
  | TypeError
  | KeyError (key : string)
  | ZeroDivisionError
  | EmptyIndexError
  | TermNotFound
  | OSError
  | FileNotFoundError
  | FileExistsError
  | EOFError
  | AttributeError (attr : string)
  | QueryError (msg : string)
  | ProviderError (msg : string).

Inductive Outcome (A : Type) : Type :=
  | Ok (a : A)
  | Raise (e : Exn).

Arguments Ok {A} a.
Arguments Raise {A} e.

Definition obind {A B} (m : Outcome A) (f : A -> Outcome B) : Outcome B :=
  match m with
  | Ok a => f a
  | Raise e => Raise e
  end.

(** [[f(x) for x in l]], stopping at the first exception. *)
Fixpoint omap {A B} (f : A -> Outcome B) (l : list A) : Outcome (list B) :=
  match l with
  | [] => Ok []
  | x :: l' => obind (f x) (fun y => obind (omap f l') (fun ys => Ok (y :: ys)))
  end.

(** ** The index engine: schema, index and storage *)

Inductive FieldKind : Type :=
  | TEXT
  | ID
  | KEYWORD (commas : bool)
  | BOOLEAN
  | NUMERIC
  | DATETIME.

Record Field : Type := mkField {
  f_kind : FieldKind;
  f_stored : bool;
  f_unique : bool
}.

(** A schema: the declared fields and the glob (dynamic) fields. *)
Record Schema : Type := mkSchema {
  fields : list (string * Field);
  dynamic_fields : list (string * Field)
}.

Definition stored (k : FieldKind) : Field := mkField k true false.

(** [DEFAULT_SCHEMA], with the five glob fields added to it. *)
Definition DEFAULT_SCHEMA : Schema :=
  mkSchema
    [ ("page_content", stored TEXT);
      ("id", mkField ID true true);
      ("source", stored (KEYWORD true));
      ("source_search", stored TEXT);
      ("filepath", stored (KEYWORD true));
      ("filepath_search", stored TEXT);
      ("filename", stored (KEYWORD false));
      ("ocr", stored BOOLEAN);
      ("table", stored BOOLEAN);
      ("markdown", stored BOOLEAN);
      ("page", stored NUMERIC);
      ("document_title", stored TEXT);
      ("md5", stored (KEYWORD false));
      ("mimetype", stored (KEYWORD false));
      ("extension", stored (KEYWORD false));
      ("filesize", stored NUMERIC);
      ("createdate", stored DATETIME);
      ("modifydate", stored DATETIME);
      ("tags", stored (KEYWORD true));
      ("notes", stored TEXT);
      ("msg", stored TEXT) ]
    [ ("*_t", stored TEXT);
      ("*_k", stored (KEYWORD true));
      ("*_b", stored BOOLEAN);
      ("*_n", stored NUMERIC);
      ("*_d", stored DATETIME) ].

Definition default_schema : Schema := DEFAULT_SCHEMA.

(** [Schema.stored_names()]: the declared fields that are stored (the glob
    fields are not among them). *)
Definition stored_names (sch : Schema) : list string :=
  map fst (List.filter (fun p => f_stored (snd p)) (fields sch)).

(** An indexed document: its number, its stored fields (what [dict(hit)]
    gives) and, per field, the terms under which the field's analyzer
    indexed it. *)
Record IxDoc : Type := mkIxDoc {
  docnum : nat;
  stored_fields : gmap string PyVal;
  terms : gmap string (list string)
}.

(** An index: its schema, its live documents in document order, and the
    number of deleted documents not yet merged away. *)
Record Index : Type := mkIndex {
  ix_schema : Schema;
  ix_docs : list IxDoc;
  ix_deleted : nat
}.

Definition empty_index (sch : Schema) : Index := mkIndex sch [] 0.

Definition doc_count (i : Index) : Z := Z.of_nat (length (ix_docs i)).

Definition doc_count_all (i : Index) : Z :=
  Z.of_nat (length (ix_docs i) + ix_deleted i).

(** A storage holds indexes by name: a directory ([FileStorage]) or a
    [RamStorage] object. An index object refers to its storage and name and
    reads the current table of contents from it at every use. *)
Inductive StorageRef : Type :=
  | FileStorage (dirname : string)
  | RamStorage (n : nat).

Record Handle : Type := mkHandle {
  h_storage : StorageRef;
  h_name : string
}.

Definition _DEF_INDEX_NAME : string := "MAIN".

(** ** The store object and the environment *)

(** A LangChain [Document]. *)
Record Document : Type := mkDocument {
  page_content : string;
  metadata : list (string * PyVal)
}.

(** The attributes of a [SparseStore]; [ix] and [embeddings] are unset
    until [__init__] assigns them. *)
Record SparseStore : Type := mkStore {
  persist_directory : option string;
  index_name : string;
  ix : option Handle;
  embeddings : option (list (string * PyVal))
}.

Record Env : Type := mkEnv {
  self : SparseStore;
  disk : gmap string (gmap string Index);
  ram : list (gmap string Index);
  warnings : list string;
  stdin : list string;
  provider_calls : list (string * list PyVal);
  uuid_count : nat
}.

Definition M (A : Type) : Type := Env -> Outcome A * Env.

Definition ret {A} (a : A) : M A := fun e => (Ok a, e).

Definition raise {A} (x : Exn) : M A := fun e => (Raise x, e).

Definition bind {A B} (m : M A) (f : A -> M B) : M B :=
  fun e =>
    match m e with
    | (Ok a, e') => f a e'
    | (Raise x, e') => (Raise x, e')
    end.

Definition lift {A} (o : Outcome A) : M A := fun e => (o, e).

Notation "'let*' x ':=' c 'in' k" := (bind c (fun x => k))
  (at level 10, x name, c at level 100, k at level 200, only parsing).

Definition get_self : M SparseStore := fun e => (Ok (self e), e).

Definition set_self (s : SparseStore) : M unit :=
  fun e =>
    (Ok tt, mkEnv s (disk e) (ram e) (warnings e) (stdin e)
                  (provider_calls e) (uuid_count e)).

Definition set_disk (d : gmap string (gmap string Index)) (e : Env) : Env :=
  mkEnv (self e) d (ram e) (warnings e) (stdin e) (provider_calls e)
        (uuid_count e).

Definition set_ram (r : list (gmap string Index)) (e : Env) : Env :=
  mkEnv (self e) (disk e) r (warnings e) (stdin e) (provider_calls e)
        (uuid_count e).

(** [self.ix = h] *)
Definition assign_ix (h : Handle) : M unit :=
  let* s := get_self in
  set_self (mkStore (persist_directory s) (index_name s) (Some h) (embeddings s)).

(** [self.embeddings = emb] *)
Definition assign_embeddings (emb : list (string * PyVal)) : M unit :=
  let* s := get_self in
  set_self (mkStore (persist_directory s) (index_name s) (ix s) (Some emb)).

(** [self.ix] *)
Definition get_ix : M Handle :=
  let* s := get_self in
  match ix s with
  | Some h => ret h
  | None => raise (AttributeError "ix")
  end.

(** [warnings.warn(msg)] *)
Definition warn (msg : string) : M unit :=
  fun e =>
    (Ok tt, mkEnv (self e) (disk e) (ram e) (warnings e ++ [msg]) (stdin e)
                  (provider_calls e) (uuid_count e)).

(** [input(prompt)]: the next line of standard input. *)
Definition input (prompt : string) : M string :=
  fun e =>
    match stdin e with
    | [] => (Raise EOFError, e)
    | line :: rest =>
        (Ok line, mkEnv (self e) (disk e) (ram e) (warnings e) rest
                        (provider_calls e) (uuid_count e))
    end.

(** ** The index engine: opening, creating, reading and writing *)

Definition storage_of (e : Env) (r : StorageRef) : option (gmap string Index) :=
  match r with
  | FileStorage d => disk e !! d
  | RamStorage n => ram e !! n
  end.

Definition lookup_index (e : Env) (h : Handle) : option Index :=
  match storage_of e (h_storage h) with
  | Some st => st !! h_name h
  | None => None
  end.

(** Reading the table of contents through an index object: what
    [ix.searcher()], [ix.schema], [ix.doc_count()] and [ix.writer()] start
    with. *)
Definition read_toc (h : Handle) : M Index :=
  fun e =>
    match lookup_index e h with
    | Some i => (Ok i, e)
    | None => (Raise EmptyIndexError, e)
    end.

(** Writing a new table of contents: what a writer's [commit] ends with. *)
Definition write_toc (h : Handle) (i : Index) : M unit :=
  fun e =>
    match h_storage h, storage_of e (h_storage h) with
    | FileStorage d, Some st =>
        (Ok tt, set_disk (<[d := <[h_name h := i]> st]> (disk e)) e)
    | RamStorage n, Some st =>
        (Ok tt, set_ram (<[n := <[h_name h := i]> st]> (ram e)) e)
    | _, None => (Raise OSError, e)
    end.

Definition is_some {A} (o : option A) : bool :=
  match o with Some _ => true | None => false end.

(** [os.path.exists(path)]; a [path] that is [None] is a [TypeError]. *)
Definition os_path_exists (path : option string) : M bool :=
  fun e =>
    match path with
    | None => (Raise TypeError, e)
    | Some d => (Ok (is_some (disk e !! d)), e)
    end.

(** A directory is identified by its path in normal form, as
    [os.path.normpath] returns it: no empty component (no doubled or
    trailing separator), no component [.] or [..]. *)
Definition slash : ascii := "/"%char.

Fixpoint split_on (sep : ascii) (s cur : string) : list string :=
  match s with
  | EmptyString => [cur]
  | String c s' =>
      if Ascii.eqb c sep then cur :: split_on sep s' EmptyString
      else split_on sep s' (cur ++ String c EmptyString)
  end.

Definition plain_component (c : string) : bool :=
  str_truthy c && negb (String.eqb c ".") && negb (String.eqb c "..").

Definition normal_path (p : string) : bool :=
  String.eqb p "/"
  || match split_on slash p EmptyString with
     | [] => false
     | first :: rest =>
         (plain_component first
          || (String.eqb first EmptyString && is_some (head rest)))
         && forallb plain_component rest
     end.

(** The directories above [path]: for each separator of [path] that is not
    its first character, the part of [path] before it. *)
Fixpoint ancestors (seen rest : string) : list string :=
  match rest with
  | EmptyString => []
  | String c rest' =>
      (if Ascii.eqb c slash && str_truthy seen then [seen] else [])
      ++ ancestors (seen ++ String c EmptyString) rest'
  end.

(** [os.mkdir] of a directory that does not exist yet. *)
Definition mkdir_missing (d : gmap string (gmap string Index)) (p : string)
    : gmap string (gmap string Index) :=
  match d !! p with
  | Some _ => d
  | None => <[p := ∅]> d
  end.

(** [os.makedirs(path)]: the empty path is refused with
    [FileNotFoundError], a directory that exists with [FileExistsError];
    otherwise the missing directories above [path] are created, then
    [path] itself, empty. *)
Definition os_makedirs (path : string) : M unit :=
  fun e =>
    if negb (str_truthy path) then (Raise FileNotFoundError, e)
    else
      match disk e !! path with
      | Some _ => (Raise FileExistsError, e)
      | None =>
          (Ok tt,
           set_disk (<[path := ∅]>
                       (fold_left mkdir_missing (ancestors EmptyString path)
                                  (disk e))) e)
      end.

(** [index.exists_in(dirname, indexname)]: [os.path.exists(dirname)] and an
    index of that name can be opened in the directory. *)
Definition exists_in (dirname : option string) (indexname : string) : M bool :=
  let* ex := os_path_exists dirname in
  if ex then
    fun e =>
      match dirname with
      | Some d =>
          (Ok (is_some (lookup_index e (mkHandle (FileStorage d) indexname))), e)
      | None => (Raise TypeError, e)
      end
  else ret false.

(** [index.open_dir(dirname, indexname)] *)
Definition open_dir (dirname : string) (indexname : string) : M Handle :=
  let h := mkHandle (FileStorage dirname) indexname in
  let* _ := read_toc h in ret h.

(** [index.create_in(dirname, schema, indexname)]: the tables of contents of
    an index of that name are cleared and an empty one is written. *)
Definition create_in (dirname : option string) (indexname : string)
    (schema : Schema) : M Handle :=
  match dirname with
  | None => raise TypeError
  | Some d =>
      let name := if str_truthy indexname then indexname else _DEF_INDEX_NAME in
      let h := mkHandle (FileStorage d) name in
      let* _ := write_toc h (empty_index schema) in ret h
  end.

(** [RamStorage().create_index(schema)] *)
Definition ram_create_index (schema : Schema) : M Handle :=
  fun e =>
    (Ok (mkHandle (RamStorage (length (ram e))) _DEF_INDEX_NAME),
     set_ram (ram e ++ [{[ _DEF_INDEX_NAME := empty_index schema ]}]) e).

(** ** The index engine: searching *)

(** A parsed query denotes its ranking: from the live documents of the
    index, the matching ones, best first. *)
Definition Query : Type := list IxDoc -> list IxDoc.

(** [Results]: the scored hits and every document that matched.
    [scored_length()] is the number of scored documents in the results,
    equal to or less than the [limit] argument of the search; [len()] is the
    total number of documents that matched the query. *)
Record Results : Type := mkResults {
  top_n : list IxDoc;
  docset : list IxDoc
}.

Definition scored_length (r : Results) : Z := Z.of_nat (length (top_n r)).

Definition results_len (r : Results) : Z := Z.of_nat (length (docset r)).

(** [Term(field, text)]: the document has the term in the field. *)
Definition has_term (field text : string) (d : IxDoc) : bool :=
  match terms d !! field with
  | Some ts => str_in text ts
  | None => false
  end.

(** [Prefix(field, text)] matches the documents that contain, in the
    field, any term that starts with the text. *)
Definition has_prefix_term (field text : string) (d : IxDoc) : bool :=
  match terms d !! field with
  | Some ts => existsb (fun t => startswith t text) ts
  | None => false
  end.

Definition Prefix (field text : string) : Query :=
  List.filter (has_prefix_term field text).

(** The filter [And([Term(k, v), ...])] of a search; [None] is no filter. *)
Definition passes (flt : option (list (string * string))) (d : IxDoc) : bool :=
  match flt with
  | None => true
  | Some fs => forallb (fun kv => has_term (fst kv) (snd kv) d) fs
  end.

(** Every document the query matches under the filter, best first. *)
Definition matching (searcher : Index) (q : Query)
    (flt : option (list (string * string))) : list IxDoc :=
  List.filter (passes flt) (q (ix_docs searcher)).

(** [searcher.search(q, limit=limit, filter=flt)]: a limit below 1 is
    refused with [ValueError("limit must be >= 1")]; the scored hits are the
    best [limit] matches ([limit=None]: all of them). *)
Definition search (searcher : Index) (q : Query) (limit : option Z)
    (flt : option (list (string * string))) : Outcome Results :=
  let matched := matching searcher q flt in
  match limit with
  | None => Ok (mkResults matched matched)
  | Some l =>
      if l <? 1 then Raise (ValueError "limit must be >= 1")
      else Ok (mkResults (firstn (Z.to_nat l) matched) matched)
  end.

(** [math.ceil(a / b)] *)
Definition ceil_div (a b : Z) : Outcome Z :=
  if b =? 0 then Raise ZeroDivisionError else Ok (- ((- a) / b)).

(** [l[start:stop]], indices as [slice.indices] clips them. *)
Definition clip_index (len i : Z) : Z :=
  if i <? 0 then Z.max 0 (i + len) else Z.min i len.

Definition py_slice {A} (l : list A) (start stop : Z) : list A :=
  let len := Z.of_nat (length l) in
  let a := clip_index len start in
  let b := clip_index len stop in
  firstn (Z.to_nat (b - a)) (skipn (Z.to_nat a) l).

(** [ResultsPage(results, pagenum, pagelen)], its attributes computed as
    its constructor does: [total = len(results)], [pagecount =
    ceil(total / pagelen)], [pagenum = min(pagecount, pagenum)], [offset =
    (pagenum - 1) * pagelen], and [pagelen] cut down to what is left after
    [offset]. *)
Record ResultsPage : Type := mkResultsPage {
  rp_results : Results;
  rp_total : Z;
  rp_pagecount : Z;
  rp_pagenum : Z;
  rp_offset : Z;
  rp_pagelen : Z
}.

Definition results_page (results : Results) (pagenum pagelen : Z)
    : Outcome ResultsPage :=
  let total := results_len results in
  if pagenum <? 1 then Raise (ValueError "pagenum must be >= 1")
  else
    obind (ceil_div total pagelen) (fun pagecount =>
    let pagenum := Z.min pagecount pagenum in
    let offset := (pagenum - 1) * pagelen in
    let pagelen := if offset + pagelen >? total then total - offset else pagelen in
    Ok (mkResultsPage results total pagecount pagenum offset pagelen)).

(** [searcher.search_page(q, pagenum, pagelen, filter=flt)]: a page number
    below 1 is refused; otherwise the search is run with the limit
    [pagenum * pagelen] and its results are wrapped in a [ResultsPage]. *)
Definition search_page (searcher : Index) (q : Query) (pagenum pagelen : Z)
    (flt : option (list (string * string))) : Outcome ResultsPage :=
  if pagenum <? 1 then Raise (ValueError "pagenum must be >= 1")
  else
    obind (search searcher q (Some (pagenum * pagelen)) flt) (fun results =>
    results_page results pagenum pagelen).

(** What [get_search_results] returns: [Results] or a [ResultsPage]. *)
Inductive SearchResults : Type :=
  | Plain (r : Results)
  | Page (p : ResultsPage).

Definition sr_scored_length (r : SearchResults) : Z :=
  match r with
  | Plain r => scored_length r
  | Page p => scored_length (rp_results p)
  end.

(** [iter(results)]: the scored hits, or the page's window of them. *)
Definition sr_iter (r : SearchResults) : list IxDoc :=
  match r with
  | Plain r => top_n r
  | Page p =>
      py_slice (top_n (rp_results p)) (rp_offset p) (rp_offset p + rp_pagelen p)
  end.

(** ** What the store takes from outside this file

    The query parser with its scoring, the highlighter, [doc_from_dict] of
    [onprem.ingest.helpers], the embedding provider (as the cosine
    similarity of a query and a text), Unicode normalisation, the random
    identifiers and [init_embedding_model] of the base class; and of the
    engine, the encoding of a query text into a term of a field that is
    not a text field (a number, a boolean, a date), which can fail, and
    the number of deleted documents that the segment merge of a commit
    without [optimize] drops from the index it is about to write. *)
Record Externals : Type := mkExternals {
  parse : Schema -> list string -> string -> Outcome Query;
  highlights : string -> IxDoc -> string -> string;
  doc_from_dict : gmap string PyVal -> Document;
  cos_sim : string -> PyVal -> Q;
  nfkc : string -> string;
  uuid4_hex : nat -> string;
  init_embedding_model : list (string * PyVal) -> Outcome (list (string * PyVal));
  term_bytes : FieldKind -> string -> Outcome string;
  merged_away : Index -> nat
}.

(** The field types whose terms are text: the term of a query text is the
    text itself. *)
Definition text_kind (k : FieldKind) : bool :=
  match k with
  | TEXT | ID | KEYWORD _ => true
  | _ => false
  end.

(** A glob field name that is a star followed by literal characters, as the
    five of [DEFAULT_SCHEMA] are, matches the names ending in these
    characters; a name without a star matches itself. *)
Definition glob_match (pattern name : string) : bool :=
  match pattern with
  | String "*"%char suffix => endswith name suffix
  | _ => String.eqb pattern name
  end.

(** [schema[name]]: the declared field of that name, or else the first
    glob field that matches it. *)
Definition schema_field (sch : Schema) (name : string) : option Field :=
  match List.find (fun p => String.eqb (fst p) name) (fields sch) with
  | Some p => Some (snd p)
  | None =>
      match List.find (fun g => glob_match (fst g) name) (dynamic_fields sch) with
      | Some g => Some (snd g)
      | None => None
      end
  end.

(** [FieldType.to_bytes(text)] for the field's type. *)
Definition to_bytes (X : Externals) (k : FieldKind) (text : string)
    : Outcome string :=
  if text_kind k then Ok text else term_bytes X k text.

(** [searcher.search(Prefix(field, text), limit=None)]: the reader expands
    the prefix in the field, which raises [TermNotFound] for a field the
    schema does not have and encodes the text as a term of the field
    otherwise; the matches are the documents with a term of the field that
    starts with it. *)
Definition prefix_search (X : Externals) (searcher : Index) (field text : string)
    : Outcome Results :=
  match schema_field (ix_schema searcher) field with
  | None => Raise TermNotFound
  | Some f =>
      obind (to_bytes X (f_kind f) text) (fun term =>
      search searcher (Prefix field term) None None)
  end.

(** A hit as [query] returns it: a dict, or a [Document]. *)
Inductive Hit : Type :=
  | HitDict (d : gmap string PyVal)
  | HitDoc (doc : Document).

(** The hits of a result: a list, or a generator whose items are computed
    when it is consumed. *)
Inductive Hits : Type :=
  | HitList (l : list Hit)
  | HitGenerator (pending : list (Outcome Hit)).

Record QueryResult : Type := mkQueryResult {
  hits : Hits;
  total_hits : Z
}.

(** The number of hits a result holds (a generator: that it will yield or
    fail on). *)
Definition n_hits (h : Hits) : nat :=
  match h with
  | HitList l => length l
  | HitGenerator g => length g
  end.

(** ** The methods of [SparseStore] *)

Section Store.

Variable X : Externals.

(** [SparseStore.initialize_index(index_path, index_name, schema)] *)
Definition initialize_index (index_path : string) (index_name : string)
    (schema : option Schema) : M Handle :=
  let schema :=
    match schema with
    | Some s => match fields s with [] => default_schema | _ :: _ => s end
    | None => default_schema
    end in
  let* ex := exists_in (Some index_path) index_name in
  if ex then
    raise (ValueError ("There is already an existing index named " ++ index_name
                       ++ "  with path " ++ index_path ++ " " ++ newline
                       ++ "Delete " ++ index_path ++ " manually and try again."))
  else
    let* there := os_path_exists (Some index_path) in
    let* _ := (if negb there then os_makedirs index_path else ret tt) in
    create_in (Some index_path) index_name schema.

Definition no_persist_warning : string :=
  "No persist_directory was supplied, so an in-memory only index"
  ++ "was created using DEFAULT_SCHEMA".

(** [SparseStore.__init__(persist_directory, index_name, **kwargs)] *)
Definition __init__ (persist_directory : option string) (index_name : string)
    (kwargs : list (string * PyVal)) : M unit :=
  let* _ := set_self (mkStore persist_directory index_name None None) in
  if opt_str_truthy persist_directory && negb (str_truthy index_name) then
    raise (ValueError "index_name is required if persist_directory is supplied")
  else
    let* _ :=
      (match persist_directory with
       | Some d =>
           if str_truthy d then
             let* ex := exists_in (Some d) index_name in
             if negb ex then
               let* h := initialize_index d index_name None in assign_ix h
             else
               let* h := open_dir d index_name in assign_ix h
           else
             let* _ := warn no_persist_warning in
             let* h := ram_create_index default_schema in assign_ix h
       | None =>
           let* _ := warn no_persist_warning in
           let* h := ram_create_index default_schema in assign_ix h
       end) in
    let* emb := lift (init_embedding_model X kwargs) in
    assign_embeddings emb.

(** [SparseStore.get_size(include_deleted)] *)
Definition get_size (include_deleted : bool) : M Z :=
  let* h := get_ix in
  let* i := read_toc h in
  ret (if include_deleted then doc_count_all i else doc_count i).


(** [writer.delete_document(docnum)] on the documents a writer holds. *)
Definition delete_document (n : nat) (i : Index) : Index :=
  let kept := List.filter (fun d => negb (Nat.eqb (docnum d) n)) (ix_docs i) in
  mkIndex (ix_schema i) kept
          (ix_deleted i + (length (ix_docs i) - length kept)).

(** [writer.commit(optimize=optimize)]: an optimizing commit merges every
    deleted document away; without [optimize] the merge policy of the
    engine decides which segments are merged, and with them how many of
    the deleted documents go. *)
Definition commit (h : Handle) (optimize : bool) (i : Index) : M unit :=
  write_toc h
    (mkIndex (ix_schema i) (ix_docs i)
             (if optimize then 0 else ix_deleted i - merged_away X i)).

(** [SparseStore.remove_document(value, field, optimize)] *)
Definition remove_document (value field : string) (optimize : bool) : M unit :=
  let* h := get_ix in
  let* i := read_toc h in
  let doomed := List.filter (has_term field value) (ix_docs i) in
  commit h optimize
    (fold_left (fun i d => delete_document (docnum d) i) doomed i).

(** [SparseStore.delete_by_prefix(prefix, field, optimize)] *)
Definition delete_by_prefix (prefix field : string) (optimize : bool) : M Z :=
  let* h := get_ix in
  let* searcher := read_toc h in
  let* results := lift (prefix_search X searcher field prefix) in
  if 0 <? results_len results then
    let* writer := read_toc h in
    let writer :=
      fold_left (fun i hit => delete_document (docnum hit) i) (top_n results) writer in
    let* _ := commit h optimize writer in
    ret (results_len results)
  else ret 0.

(** [SparseStore.remove_source(source, optimize)] *)
Definition remove_source (source : string) (optimize : bool) : M Z :=
  delete_by_prefix source "source" optimize.

(** [SparseStore.erase(confirm)] *)
Definition erase (confirm : bool) : M bool :=
  let* shall :=
    (if confirm then
       let* answer :=
         input ("You are about to remove all documents from the search index."
                ++ "(Original documents on file system will remain.) Are you sure?"
                ++ " (Y/n) ") in
       ret (String.eqb answer "Y")
     else ret true) in
  if shall then
    let* s := get_self in
    let* ex := exists_in (persist_directory s) (index_name s) in
    if ex then
      let* _ := create_in (persist_directory s) (index_name s) default_schema in
      ret true
    else ret false
  else ret false.

(** The helper [process_result] of [query]. *)
Definition process_result (q : string) (fields : list string)
    (highlight return_dict : bool) (r : IxDoc) : Outcome Hit :=
  let d := stored_fields r in
  obind
    (if highlight then
       fold_left
         (fun acc f =>
            obind acc (fun d =>
            match stored_fields r !! f with
            | None => Raise (KeyError f)
            | Some v =>
                match v with
                | VStr text =>
                    if str_truthy text then
                      let hl := highlights X q r f in
                      Ok (<["hl_" ++ f := VStr (if str_truthy hl then hl else text)]> d)
                    else Ok d
                | _ => Ok d
                end
            end))
         fields (Ok d)
     else Ok d)
    (fun d => Ok (if return_dict then HitDict d else HitDoc (doc_from_dict X d))).

(** The helper [get_search_results] of [query]. *)
Definition get_search_results (searcher : Index) (q : string)
    (fields : list string) (limit page : Z)
    (combined_filter : option (list (string * string))) : Outcome SearchResults :=
  obind (parse X (ix_schema searcher) fields q) (fun parsed =>
  if page =? 1 then
    obind (search searcher parsed (Some limit) combined_filter)
          (fun r => Ok (Plain r))
  else
    obind (search_page searcher parsed page limit combined_filter)
          (fun p => Ok (Page p))).

(** The query text [query] hands to the parser. *)
Definition compose_query (q : string) (where_document : option string) : string :=
  let q := _preprocess_query q in
  match where_document with
  | Some w => if str_truthy w then "(" ++ q ++ ") AND (" ++ w ++ ")" else q
  | None => q
  end.

(** The filter [query] hands to the search: [None] when [filters] is
    [None] or empty. *)
Definition compose_filter (filters : option (list (string * string)))
    : option (list (string * string)) :=
  match filters with
  | Some (kv :: fs) => Some (kv :: fs)
  | _ => None
  end.

(** [SparseStore.query(q, fields, highlight, limit, page, return_dict,
    filters, where_document, return_generator)] *)
Definition query (q : string) (fields : list string) (highlight : bool)
    (limit page : Z) (return_dict : bool)
    (filters : option (list (string * string)))
    (where_document : option string) (return_generator : bool) : M QueryResult :=
  let q := compose_query q where_document in
  let combined_filter := compose_filter filters in
  let* h := get_ix in
  let* searcher := read_toc h in
  let* results := lift (get_search_results searcher q fields limit page combined_filter) in
  let total_hits := sr_scored_length results in
  let* pages := lift (ceil_div total_hits limit) in
  let results := if page >? pages then [] else sr_iter results in
  if return_generator then
    ret (mkQueryResult
           (HitGenerator (map (process_result q fields highlight return_dict) results))
           total_hits)
  else
    let* hs := lift (omap (process_result q fields highlight return_dict) results) in
    ret (mkQueryResult (HitList hs) total_hits).


(** The embedding provider: one cosine similarity per text, for the query.
    The call is recorded. *)
Definition embed_and_score (query : string) (texts : list PyVal) : M (list Q) :=
  fun e =>
    (Ok (map (cos_sim X query) texts),
     mkEnv (self e) (disk e) (ram e) (warnings e) (stdin e)
           (provider_calls e ++ [(query, texts)]) (uuid_count e)).

(** [r['page_content']] on a hit of a [return_dict=True] query. *)
Definition hit_text (r : Hit) : Outcome (gmap string PyVal * PyVal) :=
  match r with
  | HitDict d =>
      match d !! "page_content" with
      | Some v => Ok (d, v)
      | None => Raise (KeyError "page_content")
      end
  | HitDoc _ => Raise TypeError
  end.

(** [results[i]['score'] = score], each result kept with its sort key. *)
Fixpoint attach_scores (results : list (gmap string PyVal)) (cos_scores : list Q)
    : list (Q * gmap string PyVal) :=
  match results, cos_scores with
  | d :: results', score :: cos_scores' =>
      (score, <["score" := VFloat score]> d) :: attach_scores results' cos_scores'
  | _, _ => []
  end.

(** [sorted(results, key=lambda x: x['score'], reverse=True)]: a stable sort,
    highest score first. *)
Fixpoint insert_desc (x : Q * gmap string PyVal) (l : list (Q * gmap string PyVal))
    : list (Q * gmap string PyVal) :=
  match l with
  | [] => [x]
  | y :: l' =>
      if Qle_bool (fst y) (fst x) then x :: y :: l' else y :: insert_desc x l'
  end.

Definition sorted_desc (l : list (Q * gmap string PyVal))
    : list (Q * gmap string PyVal) :=
  fold_right insert_desc [] l.

(** [SparseStore.semantic_search(query, k, n_candidates, filters,
    where_document)] *)
Definition semantic_search (query_text : string) (k n_candidates : Z)
    (filters : option (list (string * string)))
    (where_document : option string) : M (list Document) :=
  let* r := query query_text ["page_content"] true n_candidates 1 true
                  filters where_document false in
  match hits r with
  | HitGenerator _ => raise TypeError
  | HitList [] => ret []
  | HitList (r0 :: rs) =>
      let* results := lift (omap hit_text (r0 :: rs)) in
      let texts := map snd results in
      let* cos_scores := embed_and_score query_text texts in
      let scored := attach_scores (map fst results) cos_scores in
      let sorted_results := py_slice (sorted_desc scored) 0 k in
      ret (map (fun r => doc_from_dict X (snd r)) sorted_results)
  end.

(** The loop of [doc2dict] over the metadata: the suffix chosen for a key
    and its value ([None]: the pair is skipped). *)
Definition suffix_of (names : list string) (k : string) (v : PyVal) : option string :=
  if str_in k names then Some EmptyString
  else if isinstance_bool v then
    Some (if negb (endswith k "_b") then "_b" else EmptyString)
  else if isinstance_str v then
    if endswith k "_date" then Some "_d"
    else Some (if negb (endswith k "_k") then "_k" else EmptyString)
  else if isinstance_int_float v then
    Some (if negb (endswith k "_n") then "_n" else EmptyString)
  else None.

Definition doc2dict_step (names : list string) (d : gmap string PyVal)
    (kv : string * PyVal) : gmap string PyVal :=
  match suffix_of names (fst kv) (snd kv) with
  | Some suffix => <[fst kv ++ suffix := snd kv]> d
  | None => d
  end.

Definition doc2dict_loop (names : list string) (md : list (string * PyVal))
    : gmap string PyVal :=
  fold_left (doc2dict_step names) md ∅.

(** [md.get(key, default)] *)
Fixpoint dict_get (md : list (string * PyVal)) (key : string) (default : PyVal)
    : PyVal :=
  match md with
  | [] => default
  | (k, v) :: md' => if String.eqb k key then v else dict_get md' key default
  end.

(** [uuid.uuid4().hex] *)
Definition fresh_uuid : M string :=
  fun e =>
    (Ok (uuid4_hex X (uuid_count e)),
     mkEnv (self e) (disk e) (ram e) (warnings e) (stdin e)
           (provider_calls e) (S (uuid_count e))).

(** [SparseStore.normalize_text(text)] *)
Definition normalize_text (text : string) : string := nfkc X text.

(** The end of [doc2dict]: [source] and [filepath] are copied to their
    [_search] fields. *)
Definition add_search_fields (d : gmap string PyVal) : gmap string PyVal :=
  let d := match d !! "source" with
           | Some v => <["source_search" := v]> d
           | None => d
           end in
  match d !! "filepath" with
  | Some v => <["filepath_search" := v]> d
  | None => d
  end.

(** [SparseStore.doc2dict(doc)] *)
Definition doc2dict (doc : Document) : M (gmap string PyVal) :=
  let* h := get_ix in
  let* i := read_toc h in
  let d := doc2dict_loop (stored_names (ix_schema i)) (metadata doc) in
  let given := dict_get (metadata doc) "id" (VStr EmptyString) in
  let* id := (if negb (truthy given) then
                let* u := fresh_uuid in ret (VStr u)
              else ret given) in
  let d := <["id" := id]> d in
  let d := <["page_content" := VStr (normalize_text (page_content doc))]> d in
  ret (add_search_fields d).

End Store.

(** What [query] returns once the index has been read and the query text
    parsed: the search, the page test, and the processing of the hits. *)
Definition query_on (X : Externals) (searcher : Index) (parsed : Query)
    (q : string) (fields : list string) (highlight : bool) (limit page : Z)
    (return_dict : bool) (combined_filter : option (list (string * string)))
    (return_generator : bool) : Outcome QueryResult :=
  obind
    (if page =? 1 then
       obind (search searcher parsed (Some limit) combined_filter)
             (fun r => Ok (Plain r))
     else
       obind (search_page searcher parsed page limit combined_filter)
             (fun p => Ok (Page p)))
    (fun results =>
       let total_hits := sr_scored_length results in
       obind (ceil_div total_hits limit) (fun pages =>
       let results := if page >? pages then [] else sr_iter results in
       if return_generator then
         Ok (mkQueryResult
               (HitGenerator
                  (map (process_result X q fields highlight return_dict) results))
               total_hits)
       else
         obind (omap (process_result X q fields highlight return_dict) results)
               (fun hs => Ok (mkQueryResult (HitList hs) total_hits)))).

(** A computation that leaves the store object as it found it. *)
Definition keeps_self {A} (m : M A) : Prop :=
  forall e, self (snd (m e)) = self e.

(** Scores from the highest down. *)
Fixpoint non_increasing (l : list Q) : Prop :=
  match l with
  | [] => True
  | x :: l' =>
      match l' with
      | [] => True
      | y :: _ => (y <= x)%Q
      end /\ non_increasing l'
  end.

(** The [total_hits] of what a call returned. *)
Definition total_of (o : Outcome QueryResult * Env) : Outcome Z :=
  obind (fst o) (fun r => Ok (total_hits r)).

(** The number of hits in what a call returned. *)
Definition hit_count_of (o : Outcome QueryResult * Env) : Outcome nat :=
  obind (fst o) (fun r => Ok (n_hits (hits r))).

(** The empty hit list, in the form asked for. *)
Definition no_hits (return_generator : bool) : Hits :=
  if return_generator then HitGenerator [] else HitList [].

(** ** The keyword analyzer of the engine

    A field declared [KEYWORD(commas=True)], as [source] is, is indexed under
    the pieces of its value between commas, each stripped of surrounding
    whitespace; one declared [KEYWORD] without [commas] under the pieces
    between blanks; a field declared [ID] under its whole value. *)

(** The maximal runs of characters that are not separators. *)
Fixpoint tokens (sep : ascii -> bool) (s cur : string) : list string :=
  match s with
  | EmptyString => if str_truthy cur then [cur] else []
  | String c s' =>
      if sep c then
        (if str_truthy cur then [cur] else []) ++ tokens sep s' EmptyString
      else tokens sep s' (cur ++ String c EmptyString)
  end.

Definition is_comma (c : ascii) : bool := Ascii.eqb c ","%char.

(** Space, tab, carriage return, line feed. *)
Definition is_blank (c : ascii) : bool :=
  in_range 32 32 c || in_range 9 10 c || in_range 13 13 c.

Fixpoint lstrip (s : string) : string :=
  match s with
  | EmptyString => EmptyString
  | String c s' => if is_space c then lstrip s' else s
  end.

Definition strip (s : string) : string :=
  String.rev (lstrip (String.rev (lstrip s))).

Definition keyword_terms (commas : bool) (value : string) : list string :=
  if commas then map strip (tokens is_comma value EmptyString)
  else tokens is_blank value EmptyString.

(** ** A small engine and a few indexed documents, for the examples

    The example parser reads [id:x] as the term [x] of field [id] and any
    other text as one term looked up in the searched fields; it scores
    nothing, so hits come in document order. *)

Definition demo_parse (sch : Schema) (fields : list string) (q : string)
    : Outcome Query :=
  Ok (if startswith q "id:" then
        List.filter (has_term "id" (String.substring 3 (String.length q - 3) q))
      else List.filter (fun d => existsb (fun f => has_term f q d) fields)).

Definition demo_doc_from_dict (d : gmap string PyVal) : Document :=
  mkDocument
    (match d !! "page_content" with Some (VStr s) => s | _ => EmptyString end)
    (map_to_list (delete "page_content" d)).

Definition demo_cos_sim (q : string) (text : PyVal) : Q :=
  match text with
  | VStr s => Z.of_nat (String.length s) # 100
  | _ => 0
  end.

Definition demo_uuid (n : nat) : string :=
  string_of_list_ascii (repeat "f"%char (S n)).

Definition demo_externals : Externals :=
  mkExternals demo_parse (fun _ _ _ => EmptyString) demo_doc_from_dict
              demo_cos_sim (fun s => s) demo_uuid (fun kw => Ok kw)
              (fun _ text => Ok text) (fun _ => 0%nat).

(** A document as indexing under [DEFAULT_SCHEMA] leaves it: [id] under its
    value, [source] under its comma-separated pieces, [page_content] under
    the given words. *)
Definition demo_doc (n : nat) (id source content : string) (words : list string)
    : IxDoc :=
  mkIxDoc n
    (<["id" := VStr id]> (<["source" := VStr source]>
       (<["page_content" := VStr content]> ∅)))
    (<["id" := [id]]> (<["source" := keyword_terms true source]>
       (<["page_content" := words]> ∅))).

Definition demo_docs : list IxDoc :=
  [ demo_doc 0 "d0" "/a/b/x.pdf" "the cat sat" ["the"; "cat"; "sat"];
    demo_doc 1 "d1" "/a/b/y.pdf" "a cat" ["a"; "cat"];
    demo_doc 2 "d2" "/a/c/z.pdf" "cat and dog" ["cat"; "and"; "dog"] ].

Definition demo_index : Index := mkIndex DEFAULT_SCHEMA demo_docs 0.

(** A store opened on the index [myindex] of the directory [/data]. *)
Definition disk_store : SparseStore :=
  mkStore (Some "/data") "myindex"
          (Some (mkHandle (FileStorage "/data") "myindex")) (Some []).

Definition disk_env (i : Index) (lines : list string) : Env :=
  mkEnv disk_store (<["/data" := <["myindex" := i]> ∅]> ∅) [] [] lines [] 0.

(** A store built without a [persist_directory]. *)
Definition ram_store : SparseStore :=
  mkStore None "myindex"
          (Some (mkHandle (RamStorage 0) _DEF_INDEX_NAME)) (Some []).

Definition ram_env (i : Index) (lines : list string) : Env :=
  mkEnv ram_store ∅ [ <[_DEF_INDEX_NAME := i]> ∅ ] [] lines [] 0.

(** The environment before any store is built. *)
Definition blank_env : Env :=
  mkEnv (mkStore None EmptyString None None) ∅ [] [] [] [] 0.


(** ** Further methods of [SparseStore] *)

(** [SparseStore.get_db()] *)
Definition get_db : M Handle := get_ix.

(** [SparseStore.get_all_docs()]: [searcher.documents()] without keyword
    arguments yields the stored fields of every live document, in document
    order. *)
Definition get_all_docs : M (list (gmap string PyVal)) :=
  let* h := get_ix in
  let* searcher := read_toc h in
  ret (map stored_fields (ix_docs searcher)).

(** [SparseStore.index_exists_in(index_path, index_name)]; without a name
    the engine looks for its default index name. *)
Definition index_exists_in (index_path : string) (index_name : option string)
    : M bool :=
  exists_in (Some index_path)
            (match index_name with
             | Some name => name
             | None => _DEF_INDEX_NAME
             end).

(** [list(hits)]: a list as it is; a generator run to its end, or to the
    first exception one of its items raises. *)
Definition consume (h : Hits) : Outcome (list Hit) :=
  match h with
  | HitList l => Ok l
  | HitGenerator g => omap (fun item => item) g
  end.

(** ** The keys of an indexing record *)

(** A key and its value agree with the naming rule of the dynamic fields:
    the key is a stored field name, or it ends in [_b] and holds a boolean,
    in [_d] or [_k] and holds a string, in [_n] and holds an integer or a
    float that is no boolean. *)
Definition typed_key (names : list string) (key : string) (v : PyVal) : bool :=
  str_in key names
  || (endswith key "_b" && isinstance_bool v)
  || (endswith key "_d" && isinstance_str v)
  || (endswith key "_k" && isinstance_str v)
  || (endswith key "_n" && isinstance_int_float v && negb (isinstance_bool v)).

(** [name in schema]: a declared field, or a glob field matching. *)
Definition schema_has (sch : Schema) (name : string) : bool :=
  str_in name (map fst (fields sch))
  || existsb (fun g => glob_match (fst g) name) (dynamic_fields sch).

(** ** The parts of [query] *)

(** One round of the highlighting loop of [process_result], on the record
    built so far: [r[f]] is read from the hit, and a non-empty string gets
    its highlight, or itself where the highlighter returns nothing. *)
Definition highlight_step (X : Externals) (q : string) (r : IxDoc)
    (acc : Outcome (gmap string PyVal)) (f : string)
    : Outcome (gmap string PyVal) :=
  obind acc (fun d =>
  match stored_fields r !! f with
  | None => Raise (KeyError f)
  | Some v =>
      match v with
      | VStr text =>
          if str_truthy text then
            let hl := highlights X q r f in
            Ok (<["hl_" ++ f := VStr (if str_truthy hl then hl else text)]> d)
          else Ok d
      | _ => Ok d
      end
  end).

(** The highlight entry of a field, given what the record held under that
    key before. *)
Definition highlight_entry (X : Externals) (q : string) (r : IxDoc)
    (f : string) (before : option PyVal) : option PyVal :=
  match stored_fields r !! f with
  | Some (VStr text) =>
      if str_truthy text then
        Some (VStr (if str_truthy (highlights X q r f) then highlights X q r f
                    else text))
      else before
  | _ => before
  end.

(** The hit as [process_result] returns it. *)
Definition as_hit (X : Externals) (return_dict : bool) (d : gmap string PyVal)
    : Hit :=
  if return_dict then HitDict d else HitDoc (doc_from_dict X d).

(** What [query] iterates over, with the [total_hits] it reports: the
    search, the scored length and the page test, before any hit is
    processed. *)
Definition selected_docs (searcher : Index) (parsed : Query) (limit page : Z)
    (combined_filter : option (list (string * string)))
    : Outcome (list IxDoc * Z) :=
  obind
    (if page =? 1 then
       obind (search searcher parsed (Some limit) combined_filter)
             (fun r => Ok (Plain r))
     else
       obind (search_page searcher parsed page limit combined_filter)
             (fun p => Ok (Page p)))
    (fun results =>
       let total_hits := sr_scored_length results in
       obind (ceil_div total_hits limit) (fun pages =>
       Ok (if page >? pages then [] else sr_iter results, total_hits))).


(** * Properties *)

(** ** Running a computation *)

Lemma bind_ok {A B} (m : M A) (f : A -> M B) e a e' :
  m e = (Ok a, e') -> bind m f e = f a e'.
Proof. intros H. unfold bind. now rewrite H. Qed.

Lemma bind_raise {A B} (m : M A) (f : A -> M B) e x e' :
  m e = (Raise x, e') -> bind m f e = (Raise x, e').
Proof. intros H. unfold bind. now rewrite H. Qed.

Lemma get_ix_ok e h : ix (self e) = Some h -> get_ix e = (Ok h, e).
Proof. intros H. unfold get_ix, bind, get_self, ret. now rewrite H. Qed.

Lemma read_toc_ok e h i : lookup_index e h = Some i -> read_toc h e = (Ok i, e).
Proof. intros H. unfold read_toc. now rewrite H. Qed.

(** ** Query preprocessing *)

Example preprocess_question : _preprocess_query "climate change?" = "climate change".
Proof. reflexivity. Qed.

Example preprocess_quoted :
  _preprocess_query (String dquote ("climate change?" ++ String dquote " now"))
  = String dquote ("climate change" ++ String dquote " now").
Proof. reflexivity. Qed.

Example preprocess_words : _preprocess_query "a? b? c?" = "a b c".
Proof. reflexivity. Qed.

Example preprocess_inner : _preprocess_query "a?b" = "a?b".
Proof. reflexivity. Qed.

Example preprocess_two : _preprocess_query "what??" = "what".
Proof. reflexivity. Qed.

Example preprocess_after_bracket :
  _preprocess_query "is it (x)? yes" = "is it (x)? yes".
Proof. reflexivity. Qed.

Lemma endswith_refl s : endswith s s = true.
Proof. destruct s; cbn [endswith]; now rewrite String.eqb_refl. Qed.

Lemma endswith_cons c s suffix :
  endswith (String c s) suffix
  = String.eqb (String c s) suffix || endswith s suffix.
Proof. reflexivity. Qed.

Lemma endswith_question w : endswith (w ++ "?") "?" = true.
Proof.
  induction w as [|c w IH]; [reflexivity|].
  change (String c w ++ "?") with (String c (w ++ "?")).
  rewrite endswith_cons, IH. apply orb_true_r.
Qed.

Lemma drop_last_cons c d s :
  drop_last (String c (String d s)) = String c (drop_last (String d s)).
Proof. reflexivity. Qed.

Lemma drop_last_question w : drop_last (w ++ "?") = w.
Proof.
  induction w as [|c w IH]; [reflexivity|].
  change (String c w ++ "?") with (String c (w ++ "?")).
  destruct w as [|d w]; [reflexivity|].
  change (String d w ++ "?") with (String d (w ++ "?")) in *.
  now rewrite drop_last_cons, IH.
Qed.

Lemma preprocess_one_question w :
  endswith w "?" = false ->
  _preprocess_query (w ++ "?") = _preprocess_query w.
Proof.
  intros Hw. unfold _preprocess_query.
  now rewrite endswith_question, drop_last_question, Hw.
Qed.

Lemma re_sub_cons c tl :
  re_sub (String c tl)
  = if removable_at c tl then
      match tl with
      | String _ (String d rest') => String c (String d (re_sub rest'))
      | _ => String c EmptyString
      end
    else String c (re_sub tl).
Proof.
  destruct tl as [|q [|d rest']]; cbn [re_sub removable_at head_char].
  - reflexivity.
  - rewrite andb_true_r. destruct (is_word c && Ascii.eqb q qmark); reflexivity.
  - destruct (is_word c && Ascii.eqb q qmark); cbn [andb]; [|reflexivity].
    destruct (is_sep d); reflexivity.
Qed.

Lemma re_sub_head s : head_char (re_sub s) = head_char s.
Proof.
  destruct s as [|c tl]; [reflexivity|]. rewrite re_sub_cons.
  destruct (removable_at c tl); [|reflexivity].
  destruct tl as [|q [|d rest']]; reflexivity.
Qed.

Lemma sep_not_word d : is_sep d = true -> is_word d = false.
Proof.
  destruct d as [[] [] [] [] [] [] [] []]; vm_compute;
    intros H; try reflexivity; discriminate H.
Qed.

Lemma sep_not_qmark d : is_sep d = true -> Ascii.eqb d qmark = false.
Proof.
  destruct d as [[] [] [] [] [] [] [] []]; vm_compute;
    intros H; try reflexivity; discriminate H.
Qed.

Lemma removable_at_not_word d tl : is_word d = false -> removable_at d tl = false.
Proof. intros H. destruct tl; [reflexivity|]. cbn [removable_at]. now rewrite H. Qed.

Lemma removable_at_re_sub c tl : removable_at c (re_sub tl) = removable_at c tl.
Proof.
  destruct tl as [|q rest]; [reflexivity|]. rewrite re_sub_cons.
  destruct (removable_at q rest) eqn:Hq.
  - (* [q] is a word character, so it is no question mark *)
    assert (Hnq : Ascii.eqb q qmark = false).
    { destruct rest as [|q' rest]; [discriminate|]. cbn [removable_at] in Hq.
      destruct (Ascii.eqb q qmark) eqn:E; [|reflexivity].
      apply Ascii.eqb_eq in E. subst q. discriminate. }
    destruct rest as [|q' [|d rest']]; cbn [removable_at];
      now rewrite Hnq, !andb_false_r.
  - cbn [removable_at]. now rewrite re_sub_head.
Qed.

Lemma re_sub_no_removable (n : nat) (s : string) :
  (String.length s <= n)%nat -> has_removable (re_sub s) = false.
Proof.
  revert s. induction n as [|n IH]; intros s Hlen.
  - destruct s; [reflexivity|cbn in Hlen; lia].
  - destruct s as [|c tl]; [reflexivity|]. cbn [String.length] in Hlen.
    rewrite re_sub_cons. destruct (removable_at c tl) eqn:Hc.
    + destruct tl as [|q [|d rest']]; [discriminate|reflexivity|].
      cbn [removable_at head_char] in Hc.
      apply andb_prop in Hc as [_ Hd].
      cbn [has_removable String.length] in *.
      rewrite (removable_at_not_word d _ (sep_not_word d Hd)).
      rewrite IH by lia. cbn [removable_at].
      now rewrite (sep_not_qmark d Hd), andb_false_r.
    + cbn [has_removable]. rewrite removable_at_re_sub, Hc. cbn [orb].
      apply IH. lia.
Qed.

Lemma strip_qmarks_re_sub (n : nat) (s : string) :
  (String.length s <= n)%nat -> strip_qmarks (re_sub s) = strip_qmarks s.
Proof.
  revert s. induction n as [|n IH]; intros s Hlen.
  - destruct s; [reflexivity|cbn in Hlen; lia].
  - destruct s as [|c tl]; [reflexivity|]. cbn [String.length] in Hlen.
    rewrite re_sub_cons. destruct (removable_at c tl) eqn:Hc.
    + destruct tl as [|q rest]; [discriminate|].
      cbn [removable_at] in Hc.
      apply andb_prop in Hc as [Hc _]. apply andb_prop in Hc as [_ Hq].
      apply Ascii.eqb_eq in Hq. subst q.
      destruct rest as [|d rest']; cbn [strip_qmarks String.length] in *.
      * rewrite Ascii.eqb_refl. reflexivity.
      * rewrite Ascii.eqb_refl. rewrite IH by lia. reflexivity.
    + cbn [strip_qmarks]. now rewrite IH by lia.
Qed.

Lemma strip_qmarks_drop_last s :
  endswith s "?" = true -> strip_qmarks (drop_last s) = strip_qmarks s.
Proof.
  induction s as [|c s IH]; [reflexivity|].
  rewrite endswith_cons. destruct s as [|d s].
  - cbn [drop_last strip_qmarks]. intros H.
    destruct (Ascii.eqb c qmark) eqn:E; [reflexivity|].
    exfalso. cbn in H. unfold qmark in E. rewrite E in H. discriminate.
  - intros H. rewrite drop_last_cons. cbn [strip_qmarks] in *.
    assert (Hs : endswith (String d s) "?" = true).
    { apply orb_prop in H as [H|H]; [|exact H].
      apply String.eqb_eq in H. discriminate. }
    rewrite (IH Hs). reflexivity.
Qed.

(** C3, as the code has it: preprocessing drops one question mark from the
    end of the query and then every question mark that follows a word
    character and precedes whitespace, a double quote or the end. So the
    preprocessed text of any query holds no such question mark any more and
    differs from the query in question marks only; and for every query
    text [w] that does not itself end in a question mark, the question [w?]
    is preprocessed to the same text as [w], and the two queries give the
    same hits, in the same order, and the same [total_hits], whatever the
    index, fields, limit, page, filters and sub-query. *)
Theorem question_mark_normalization (X : Externals) (w : string)
    (fields : list string) (highlight : bool) (limit page : Z)
    (return_dict : bool) (filters : option (list (string * string)))
    (where_document : option string) (return_generator : bool) (e : Env) :
  endswith w "?" = false ->
  _preprocess_query (w ++ "?") = _preprocess_query w
  /\ query X (w ++ "?") fields highlight limit page return_dict filters
           where_document return_generator e
     = query X w fields highlight limit page return_dict filters
             where_document return_generator e
  /\ (forall q, has_removable (_preprocess_query q) = false
                /\ strip_qmarks (_preprocess_query q) = strip_qmarks q).
Proof.
  intros Hw. split; [|split].
  - exact (preprocess_one_question w Hw).
  - unfold query, compose_query. now rewrite (preprocess_one_question w Hw).
  - intros q. unfold _preprocess_query. split.
    + now apply (re_sub_no_removable (String.length
                   (if endswith q "?" then drop_last q else q))).
    + rewrite (strip_qmarks_re_sub (String.length
                 (if endswith q "?" then drop_last q else q))) by lia.
      destruct (endswith q "?") eqn:E; [|reflexivity].
      now apply strip_qmarks_drop_last.
Qed.

Lemma question_mark_normalization_witness :
  endswith "climate change" "?" = false
  /\ query demo_externals ("climate change" ++ "?") ["page_content"] true 10 1
           false None None false (disk_env demo_index [])
     = query demo_externals "climate change" ["page_content"] true 10 1
             false None None false (disk_env demo_index []).
Proof.
  split; [reflexivity|].
  refine (proj1 (proj2 (question_mark_normalization demo_externals
    "climate change" ["page_content"] true 10 1 false None None false
    (disk_env demo_index []) _))).
  reflexivity.
Defined.

(** C3, as stated, fails: three question marks at the end of a query leave
    two, so the preprocessed query still ends in a question mark; and a
    question mark after a closing bracket inside the query stays. *)
Lemma question_marks_left_behind :
  _preprocess_query "what???" = "what??"
  /\ endswith (_preprocess_query "what???") "?" = true
  /\ _preprocess_query "is it (x)? yes" = "is it (x)? yes".
Proof. repeat split; reflexivity. Qed.

(** ** The document mapper *)

Lemma doc2dict_loop_snoc names md kv :
  doc2dict_loop names (md ++ [kv]) = doc2dict_step names (doc2dict_loop names md) kv.
Proof. unfold doc2dict_loop. now rewrite fold_left_app. Qed.

Lemma suffix_of_stored names k v :
  str_in k names = true -> suffix_of names k v = Some EmptyString.
Proof. intros H. unfold suffix_of. now rewrite H. Qed.

Lemma append_empty_r (s : string) : s ++ EmptyString = s.
Proof.
  induction s as [|c s IH]; [reflexivity|].
  change (String c s ++ EmptyString) with (String c (s ++ EmptyString)).
  now rewrite IH.
Qed.

Lemma lookup_add_search_fields (d : gmap string PyVal) key :
  key <> "source_search" -> key <> "filepath_search" ->
  add_search_fields d !! key = d !! key.
Proof.
  intros H1 H2. unfold add_search_fields.
  destruct (d !! "source");
    match goal with
    | |- context [match ?m !! "filepath" with _ => _ end] => destruct (m !! "filepath")
    end;
    now rewrite ?lookup_insert_ne by congruence.
Qed.

(** C5: how the loop of [doc2dict] maps one metadata pair [(k, v)] into the
    record [d] built so far. A key among the stored field names of the
    schema is kept as it is. Otherwise a boolean goes under [k_b] (under [k]
    when [k] already ends in [_b]); a string whose key ends in [_date] goes
    under [k_d]; any other string under [k_k] (under [k] when it ends in
    [_k]); an integer or a float under [k_n] (under [k] when it ends in
    [_n]); a value of any other type leaves the record as it was. The loop
    over the whole metadata is these steps in order, and [doc2dict] returns
    a record, raising nothing, whenever the store's index can be read. *)
Theorem doc2dict_field_rules (X : Externals) (names : list string)
    (d : gmap string PyVal) (k : string) :
  (forall v, str_in k names = true ->
     doc2dict_step names d (k, v) = <[k := v]> d)
  /\ (forall b, str_in k names = false ->
        doc2dict_step names d (k, VBool b)
        = <[(if endswith k "_b" then k else k ++ "_b") := VBool b]> d)
  /\ (forall s, str_in k names = false -> endswith k "_date" = true ->
        doc2dict_step names d (k, VStr s) = <[k ++ "_d" := VStr s]> d)
  /\ (forall s, str_in k names = false -> endswith k "_date" = false ->
        doc2dict_step names d (k, VStr s)
        = <[(if endswith k "_k" then k else k ++ "_k") := VStr s]> d)
  /\ (forall z, str_in k names = false ->
        doc2dict_step names d (k, VInt z)
        = <[(if endswith k "_n" then k else k ++ "_n") := VInt z]> d)
  /\ (forall q, str_in k names = false ->
        doc2dict_step names d (k, VFloat q)
        = <[(if endswith k "_n" then k else k ++ "_n") := VFloat q]> d)
  /\ (forall v, str_in k names = false ->
        isinstance_bool v = false -> isinstance_str v = false ->
        isinstance_int_float v = false ->
        doc2dict_step names d (k, v) = d)
  /\ (forall md v,
        doc2dict_loop names (md ++ [(k, v)])
        = doc2dict_step names (doc2dict_loop names md) (k, v))
  /\ (forall doc e h i,
        ix (self e) = Some h -> lookup_index e h = Some i ->
        exists rec e', doc2dict X doc e = (Ok rec, e')
          /\ forall key, key <> "id" -> key <> "page_content" ->
               key <> "source_search" -> key <> "filepath_search" ->
               rec !! key
               = doc2dict_loop (stored_names (ix_schema i)) (metadata doc) !! key).
Proof.
  repeat split.
  - intros v H. unfold doc2dict_step. cbn [fst snd].
    rewrite (suffix_of_stored _ _ _ H). now rewrite append_empty_r.
  - intros b H. unfold doc2dict_step, suffix_of. cbn [fst snd isinstance_bool].
    rewrite H. destruct (endswith k "_b"); cbn [negb]; now rewrite ?append_empty_r.
  - intros s H Hd. unfold doc2dict_step, suffix_of.
    cbn [fst snd isinstance_bool isinstance_str]. now rewrite H, Hd.
  - intros s H Hd. unfold doc2dict_step, suffix_of.
    cbn [fst snd isinstance_bool isinstance_str]. rewrite H, Hd.
    destruct (endswith k "_k"); cbn [negb]; now rewrite ?append_empty_r.
  - intros z H. unfold doc2dict_step, suffix_of.
    cbn [fst snd isinstance_bool isinstance_str isinstance_int_float]. rewrite H.
    destruct (endswith k "_n"); cbn [negb]; now rewrite ?append_empty_r.
  - intros q H. unfold doc2dict_step, suffix_of.
    cbn [fst snd isinstance_bool isinstance_str isinstance_int_float]. rewrite H.
    destruct (endswith k "_n"); cbn [negb]; now rewrite ?append_empty_r.
  - intros v H Hb Hs Hn. unfold doc2dict_step, suffix_of. cbn [fst snd].
    now rewrite H, Hb, Hs, Hn.
  - intros md v. apply doc2dict_loop_snoc.
  - intros doc e h i Hix Hi.
    unfold doc2dict.
    rewrite (bind_ok _ _ _ _ _ (get_ix_ok _ _ Hix)).
    rewrite (bind_ok _ _ _ _ _ (read_toc_ok _ _ _ Hi)).
    assert (Hrest : forall (d0 : gmap string PyVal) (idv : PyVal) (key : string),
      key <> "id" -> key <> "page_content" ->
      key <> "source_search" -> key <> "filepath_search" ->
      add_search_fields
        (<["page_content" := VStr (normalize_text X (page_content doc))]>
           (<["id" := idv]> d0)) !! key = d0 !! key).
    { intros d0 idv key H1 H2 H3 H4.
      rewrite lookup_add_search_fields by assumption.
      now rewrite !lookup_insert_ne by congruence. }
    destruct (truthy (dict_get (metadata doc) "id" (VStr EmptyString))) eqn:Hid;
      cbn [negb].
    + eexists _, _. split; [reflexivity|]. apply Hrest.
    + eexists _, _. split; [reflexivity|]. apply Hrest.
Qed.

(** ** Opening and creating an index *)

Lemma exists_in_dir e d name :
  exists_in (Some d) name e
  = (Ok (is_some (lookup_index e (mkHandle (FileStorage d) name))), e).
Proof.
  unfold exists_in, bind, os_path_exists, lookup_index, storage_of, ret.
  cbn [h_storage h_name].
  destruct (disk e !! d) as [st|] eqn:Hd; cbn [is_some]; now rewrite ?Hd.
Qed.

Lemma exists_in_no_dir e name : exists_in None name e = (Raise TypeError, e).
Proof. reflexivity. Qed.

(** C7: the three configuration cases of building a store. A non-empty
    [persist_directory] with an empty [index_name] is refused with a
    [ValueError], and nothing is created. [initialize_index] on a directory
    and name under which an index exists raises a [ValueError] and leaves
    every index as it was. Without a [persist_directory] (and with the
    embedding set-up of the base class succeeding) the constructor returns
    normally, having issued exactly one warning and created a new in-memory
    storage holding an empty index with the default schema, to which
    [self.ix] refers. *)
Theorem store_configuration (X : Externals) (e : Env)
    (kwargs : list (string * PyVal)) :
  (forall d, str_truthy d = true ->
     fst (__init__ X (Some d) EmptyString kwargs e)
     = Raise (ValueError "index_name is required if persist_directory is supplied")
     /\ disk (snd (__init__ X (Some d) EmptyString kwargs e)) = disk e
     /\ ram (snd (__init__ X (Some d) EmptyString kwargs e)) = ram e)
  /\ (forall path name schema i,
        lookup_index e (mkHandle (FileStorage path) name) = Some i ->
        exists msg,
          initialize_index path name schema e = (Raise (ValueError msg), e))
  /\ (forall name emb,
        init_embedding_model X kwargs = Ok emb ->
        __init__ X None name kwargs e
        = (Ok tt,
           mkEnv (mkStore None name
                    (Some (mkHandle (RamStorage (length (ram e))) _DEF_INDEX_NAME))
                    (Some emb))
                 (disk e)
                 (ram e ++ [{[ _DEF_INDEX_NAME := empty_index DEFAULT_SCHEMA ]}])
                 (warnings e ++ [no_persist_warning])
                 (stdin e) (provider_calls e) (uuid_count e))).
Proof.
  split; [|split].
  - intros d Hd. unfold __init__, bind, set_self, opt_str_truthy.
    rewrite Hd. cbn. repeat split.
  - intros path name schema i Hi.
    unfold initialize_index. eexists.
    rewrite (bind_ok _ _ _ _ _ (exists_in_dir e path name)).
    rewrite Hi. reflexivity.
  - intros name emb Hemb.
    unfold __init__, bind, set_self, opt_str_truthy, warn, ram_create_index,
      assign_ix, assign_embeddings, get_self, lift, set_ram, bind.
    cbn. rewrite Hemb. reflexivity.
Qed.

Lemma store_configuration_witness :
  fst (__init__ demo_externals (Some "/data") EmptyString [] blank_env)
  = Raise (ValueError "index_name is required if persist_directory is supplied")
  /\ (exists msg,
        initialize_index "/data" "myindex" None (disk_env demo_index [])
        = (Raise (ValueError msg), disk_env demo_index []))
  /\ fst (__init__ demo_externals None "myindex" [] blank_env) = Ok tt
  /\ warnings (snd (__init__ demo_externals None "myindex" [] blank_env))
     = [no_persist_warning].
Proof.
  pose proof (store_configuration demo_externals blank_env []) as (H1 & _ & H3).
  pose proof (store_configuration demo_externals (disk_env demo_index []) [])
    as (_ & H2 & _).
  split; [exact (proj1 (H1 "/data" eq_refl))|].
  split; [exact (H2 "/data" "myindex" None demo_index eq_refl)|].
  rewrite (H3 "myindex" [] eq_refl). split; reflexivity.
Defined.

(** ** Erasing the index *)

Lemma get_size_eq include_deleted e :
  get_size include_deleted e
  = (match ix (self e) with
     | Some h =>
         match lookup_index e h with
         | Some i => Ok (if include_deleted then doc_count_all i else doc_count i)
         | None => Raise EmptyIndexError
         end
     | None => Raise (AttributeError "ix")
     end, e).
Proof.
  cbv beta iota delta [get_size bind get_ix get_self ret raise read_toc].
  destruct (ix (self e)) as [h|]; [|reflexivity].
  destruct (lookup_index e h); reflexivity.
Qed.

Lemma keeps_self_ret {A} (a : A) : keeps_self (ret a).
Proof. intros e. reflexivity. Qed.

Lemma keeps_self_raise {A} (x : Exn) : keeps_self (@raise A x).
Proof. intros e. reflexivity. Qed.

Lemma keeps_self_lift {A} (o : Outcome A) : keeps_self (lift o).
Proof. intros e. reflexivity. Qed.

Lemma keeps_self_bind {A B} (m : M A) (f : A -> M B) :
  keeps_self m -> (forall a, keeps_self (f a)) -> keeps_self (bind m f).
Proof.
  intros Hm Hf e. unfold bind. specialize (Hm e).
  destruct (m e) as [[a|x] e']; cbn [snd] in *.
  - now rewrite Hf.
  - exact Hm.
Qed.

Lemma keeps_self_get_self : keeps_self get_self.
Proof. intros e. reflexivity. Qed.

Lemma keeps_self_input prompt : keeps_self (input prompt).
Proof. intros e. unfold input. destruct (stdin e); reflexivity. Qed.

Lemma keeps_self_read_toc h : keeps_self (read_toc h).
Proof. intros e. unfold read_toc. destruct (lookup_index e h); reflexivity. Qed.

Lemma keeps_self_write_toc h i : keeps_self (write_toc h i).
Proof.
  intros e. unfold write_toc.
  destruct (h_storage h), (storage_of e _); reflexivity.
Qed.

Lemma keeps_self_exists_in dirname name : keeps_self (exists_in dirname name).
Proof.
  destruct dirname as [d|]; intros e.
  - now rewrite exists_in_dir.
  - reflexivity.
Qed.

Lemma keeps_self_create_in dirname name schema :
  keeps_self (create_in dirname name schema).
Proof.
  destruct dirname as [d|]; cbn [create_in].
  - apply keeps_self_bind; [apply keeps_self_write_toc|].
    intros _. apply keeps_self_ret.
  - apply keeps_self_raise.
Qed.

Lemma keeps_self_erase confirm : keeps_self (erase confirm).
Proof.
  unfold erase. apply keeps_self_bind.
  - destruct confirm; [|apply keeps_self_ret].
    apply keeps_self_bind; [apply keeps_self_input|].
    intros answer. apply keeps_self_ret.
  - intros [|]; [|apply keeps_self_ret].
    apply keeps_self_bind; [apply keeps_self_get_self|]. intros s.
    apply keeps_self_bind; [apply keeps_self_exists_in|]. intros [|].
    + apply keeps_self_bind; [apply keeps_self_create_in|].
      intros _. apply keeps_self_ret.
    + apply keeps_self_ret.
Qed.

(** C8: [erase] assigns nothing to the store object. Whatever [confirm] is
    and however the call ends (returning [True] or [False], or raising), the
    object afterwards has the attributes it had before, [self.ix] among
    them; so a later operation on the same store finds under [self.ix] the
    index object that was there before the call, and [get_size] reads
    through it. *)
Theorem erase_keeps_handle (confirm : bool) (e : Env) :
  self (snd (erase confirm e)) = self e
  /\ ix (self (snd (erase confirm e))) = ix (self e)
  /\ forall h,
       ix (self e) = Some h ->
       get_ix (snd (erase confirm e)) = (Ok h, snd (erase confirm e))
       /\ forall include_deleted,
            get_size include_deleted (snd (erase confirm e))
            = (match lookup_index (snd (erase confirm e)) h with
               | Some i =>
                   Ok (if include_deleted then doc_count_all i else doc_count i)
               | None => Raise EmptyIndexError
               end, snd (erase confirm e)).
Proof.
  pose proof (keeps_self_erase confirm e) as Hself.
  split; [exact Hself|]. split; [now rewrite Hself|].
  intros h Hix. split.
  - apply get_ix_ok. now rewrite Hself.
  - intros b. rewrite get_size_eq. now rewrite Hself, Hix.
Qed.

Lemma erase_keeps_handle_witness :
  ix (self (snd (erase false (disk_env demo_index [])))) = ix disk_store
  /\ fst (erase false (disk_env demo_index [])) = Ok true
  /\ fst (get_size false (snd (erase false (disk_env demo_index [])))) = Ok 0.
Proof.
  pose proof (erase_keeps_handle false (disk_env demo_index [])) as (_ & H2 & H3).
  split; [exact H2|]. split; [reflexivity|].
  rewrite (proj2 (H3 (mkHandle (FileStorage "/data") "myindex") eq_refl) false).
  reflexivity.
Defined.

Lemma erase_declined e line rest :
  stdin e = line :: rest -> String.eqb line "Y" = false ->
  erase true e
  = (Ok false,
     mkEnv (self e) (disk e) (ram e) (warnings e) rest (provider_calls e)
           (uuid_count e)).
Proof.
  intros Hin Hline. unfold erase, bind, input, ret.
  now rewrite Hin, Hline.
Qed.

Lemma erase_in_memory e :
  persist_directory (self e) = None -> erase false e = (Raise TypeError, e).
Proof.
  intros Hpd. unfold erase, bind, ret, get_self. now rewrite Hpd.
Qed.

Lemma erase_missing e d :
  persist_directory (self e) = Some d ->
  lookup_index e (mkHandle (FileStorage d) (index_name (self e))) = None ->
  erase false e = (Ok false, e).
Proof.
  intros Hpd Hnone. unfold erase, bind, ret, get_self.
  now rewrite Hpd, exists_in_dir, Hnone.
Qed.

Lemma erase_existing e d st i :
  persist_directory (self e) = Some d ->
  str_truthy (index_name (self e)) = true ->
  disk e !! d = Some st -> st !! index_name (self e) = Some i ->
  erase false e
  = (Ok true,
     set_disk (<[d := <[index_name (self e) := empty_index DEFAULT_SCHEMA]> st]> (disk e)) e).
Proof.
  intros Hpd Hname Hd Hi. unfold erase, bind, ret, get_self.
  rewrite Hpd, exists_in_dir.
  unfold lookup_index, storage_of. cbn [h_storage h_name].
  rewrite Hd, Hi. cbn [is_some].
  unfold create_in, bind, write_toc, storage_of, ret. rewrite Hname.
  cbn [h_storage h_name]. now rewrite Hd.
Qed.

(** [erase] on a store opened on a directory: declining the prompt returns
    [False] and changes no index; without the prompt, an index that exists
    is replaced by an empty one with the default schema, [True] is returned
    and [get_size] then gives 0; when no index of that name is in the
    directory, [False] is returned and nothing changes. *)
Theorem erase_on_disk (e : Env) (d name : string) :
  persist_directory (self e) = Some d ->
  index_name (self e) = name ->
  str_truthy name = true ->
  ix (self e) = Some (mkHandle (FileStorage d) name) ->
  (forall line rest, stdin e = line :: rest -> String.eqb line "Y" = false ->
     fst (erase true e) = Ok false
     /\ disk (snd (erase true e)) = disk e
     /\ fst (get_size false (snd (erase true e))) = fst (get_size false e))
  /\ (forall i, lookup_index e (mkHandle (FileStorage d) name) = Some i ->
        fst (erase false e) = Ok true
        /\ lookup_index (snd (erase false e)) (mkHandle (FileStorage d) name)
           = Some (empty_index DEFAULT_SCHEMA)
        /\ fst (get_size false (snd (erase false e))) = Ok 0)
  /\ (lookup_index e (mkHandle (FileStorage d) name) = None ->
        erase false e = (Ok false, e)).
Proof.
  intros Hpd Hname Htruthy Hix. subst name. split; [|split].
  - intros line rest Hin Hline.
    rewrite (erase_declined e line rest Hin Hline). cbn [fst snd disk].
    repeat split. now rewrite !get_size_eq.
  - intros i Hi. unfold lookup_index, storage_of in Hi. cbn [h_storage h_name] in Hi.
    destruct (disk e !! d) as [st|] eqn:Hd; [|discriminate].
    rewrite (erase_existing e d st i Hpd Htruthy Hd Hi). cbn [fst snd].
    assert (Hnew : lookup_index
              (set_disk (<[d := <[index_name (self e) := empty_index DEFAULT_SCHEMA]> st]>
                           (disk e)) e)
              (mkHandle (FileStorage d) (index_name (self e)))
            = Some (empty_index DEFAULT_SCHEMA)).
    { unfold lookup_index, storage_of, set_disk. cbn [h_storage h_name disk].
      now rewrite !lookup_insert_eq. }
    repeat split; [exact Hnew|].
    rewrite get_size_eq. cbn [fst].
    change (self (set_disk _ e)) with (self e). now rewrite Hix, Hnew.
  - intros Hnone. now apply (erase_missing e d).
Qed.

Lemma erase_on_disk_witness :
  fst (erase true (disk_env demo_index ["n"])) = Ok false
  /\ fst (get_size false (snd (erase true (disk_env demo_index ["n"])))) = Ok 3
  /\ fst (erase false (disk_env demo_index [])) = Ok true
  /\ fst (get_size false (snd (erase false (disk_env demo_index [])))) = Ok 0.
Proof.
  pose proof (erase_on_disk (disk_env demo_index ["n"]) "/data" "myindex"
                eq_refl eq_refl eq_refl eq_refl) as (H1 & _ & _).
  pose proof (erase_on_disk (disk_env demo_index []) "/data" "myindex"
                eq_refl eq_refl eq_refl eq_refl) as (_ & H2 & _).
  destruct (H1 "n" [] eq_refl eq_refl) as (Ha & _ & Hb).
  destruct (H2 demo_index eq_refl) as (Hc & _ & Hd).
  split; [exact Ha|]. split; [rewrite Hb; reflexivity|].
  split; [exact Hc|exact Hd].
Defined.

(** C2, where the code departs from it: on a store built without a
    [persist_directory], [erase(confirm=False)] raises [TypeError] out of
    [index.exists_in(None, ...)]; it neither empties the index (its three
    documents stay) nor returns [False]. *)
Theorem erase_in_memory_store_raises :
  fst (get_size false (ram_env demo_index [])) = Ok 3
  /\ erase false (ram_env demo_index []) = (Raise TypeError, ram_env demo_index [])
  /\ fst (erase true (ram_env demo_index ["Y"])) = Raise TypeError.
Proof. repeat split. Qed.

(** ** Querying *)

Lemma query_eq X q fields highlight limit page return_dict filters
    where_document return_generator e h i parsed :
  ix (self e) = Some h ->
  lookup_index e h = Some i ->
  parse X (ix_schema i) fields (compose_query q where_document) = Ok parsed ->
  query X q fields highlight limit page return_dict filters where_document
        return_generator e
  = (query_on X i parsed (compose_query q where_document) fields highlight
              limit page return_dict (compose_filter filters) return_generator,
     e).
Proof.
  intros Hix Hi Hparse. unfold query.
  rewrite (bind_ok _ _ _ _ _ (get_ix_ok _ _ Hix)).
  rewrite (bind_ok _ _ _ _ _ (read_toc_ok _ _ _ Hi)).
  unfold query_on, get_search_results. rewrite Hparse. cbn [obind].
  cbv beta iota delta [bind lift ret].
  destruct (if page =? 1 then _ else _) as [results|x]; cbn [obind]; [|reflexivity].
  destruct (ceil_div (sr_scored_length results) limit) as [pages|x];
    cbn [obind]; [|reflexivity].
  destruct return_generator; [reflexivity|].
  destruct (omap _ _); reflexivity.
Qed.

Lemma ceil_div_pos a b :
  0 < b -> exists c, ceil_div a b = Ok c /\ a <= c * b /\ (c - 1) * b < a.
Proof.
  intros Hb. unfold ceil_div.
  destruct (b =? 0) eqn:E; [apply Z.eqb_eq in E; lia|].
  eexists. split; [reflexivity|].
  pose proof (Z.mul_div_le (- a) b Hb).
  pose proof (Z.mul_succ_div_gt (- a) b Hb). nia.
Qed.

Lemma ceil_div_le a b c c' :
  0 < b -> ceil_div a b = Ok c -> ceil_div (Z.min a (c' * b)) b = Ok (Z.min c c').
Proof.
  intros Hb Hc.
  destruct (ceil_div_pos a b Hb) as (c0 & Hc0 & H1 & H2).
  rewrite Hc0 in Hc. injection Hc as <-.
  destruct (ceil_div_pos (Z.min a (c' * b)) b Hb) as (c1 & Hc1 & H3 & H4).
  rewrite Hc1. f_equal. nia.
Qed.

Lemma scored_length_firstn (l : Z) (matched : list IxDoc) :
  0 <= l ->
  Z.of_nat (length (firstn (Z.to_nat l) matched))
  = Z.min (Z.of_nat (length matched)) l.
Proof. intros Hl. rewrite length_firstn. lia. Qed.

(** The scored length that [query] reports, for a limit and a page of at
    least 1: the matches among the first [page * limit]. *)
Lemma query_on_total_hits X i parsed q fields highlight limit page return_dict
    flt return_generator r :
  query_on X i parsed q fields highlight limit page return_dict flt
           return_generator = Ok r ->
  1 <= limit /\ 1 <= page
  /\ total_hits r = Z.min (Z.of_nat (length (matching i parsed flt))) (page * limit).
Proof.
  unfold query_on, search_page, search, results_page.
  set (matched := matching i parsed flt).
  destruct (page =? 1) eqn:Hp.
  - apply Z.eqb_eq in Hp. subst page.
    destruct (limit <? 1) eqn:Hl; cbn [obind]; [discriminate|].
    apply Z.ltb_ge in Hl.
    cbn [sr_scored_length scored_length top_n].
    destruct (ceil_div _ limit) as [pages|]; cbn [obind]; [|discriminate].
    intros H. assert (total_hits r = Z.of_nat (length (firstn (Z.to_nat limit) matched))).
    { destruct return_generator; [now injection H as <-|].
      destruct (omap _ _); cbn [obind] in H; [now injection H as <-|discriminate]. }
    rewrite scored_length_firstn in * by lia. lia.
  - apply Z.eqb_neq in Hp.
    destruct (page <? 1) eqn:Hp1; cbn [obind]; [discriminate|].
    apply Z.ltb_ge in Hp1.
    destruct (page * limit <? 1) eqn:Hl; cbn [obind]; [discriminate|].
    apply Z.ltb_ge in Hl.
    destruct (ceil_div (results_len _) limit) as [pc|]; cbn [obind]; [|discriminate].
    cbn [sr_scored_length scored_length rp_results top_n].
    destruct (ceil_div _ limit) as [pages|]; cbn [obind]; [|discriminate].
    intros H.
    assert (total_hits r = Z.of_nat (length (firstn (Z.to_nat (page * limit)) matched))).
    { destruct return_generator; [now injection H as <-|].
      destruct (omap _ _); cbn [obind] in H; [now injection H as <-|discriminate]. }
    rewrite scored_length_firstn in * by lia. nia.
Qed.

Lemma length_zero_nil {A} (l : list A) : Z.of_nat (length l) = 0 -> l = [].
Proof. destruct l; [reflexivity|cbn; lia]. Qed.

(** The first page: the best [limit] matches, processed. *)
Lemma query_on_first_page X i parsed q fields highlight limit return_dict flt :
  1 <= limit ->
  query_on X i parsed q fields highlight limit 1 return_dict flt false
  = obind (omap (process_result X q fields highlight return_dict)
                (firstn (Z.to_nat limit) (matching i parsed flt)))
          (fun hs =>
             Ok (mkQueryResult (HitList hs)
                   (Z.min (Z.of_nat (length (matching i parsed flt))) limit))).
Proof.
  intros Hl. unfold query_on, search.
  set (matched := matching i parsed flt).
  cbn [Z.eqb Pos.eqb]. destruct (limit <? 1) eqn:E; [apply Z.ltb_lt in E; lia|].
  cbn [obind sr_scored_length sr_iter]. unfold scored_length. cbn [top_n].
  rewrite scored_length_firstn by lia.
  set (total := Z.min (Z.of_nat (length matched)) limit).
  destruct (ceil_div_pos total limit ltac:(lia)) as (c & Hc & H1 & H2).
  rewrite Hc. cbn [obind].
  destruct (1 >? c) eqn:Hgt; [|reflexivity].
  assert (Hnil : firstn (Z.to_nat limit) matched = []).
  { apply length_zero_nil. rewrite scored_length_firstn by lia.
    fold total. apply Z.gtb_lt in Hgt. subst total. nia. }
  now rewrite Hnil.
Qed.

(** A page past the last one: no hits, and the scored length is the
    number of matches. *)
Lemma query_on_beyond X i parsed q fields highlight limit page return_dict flt
    return_generator c :
  1 <= limit -> 1 <= page ->
  ceil_div (Z.of_nat (length (matching i parsed flt))) limit = Ok c ->
  c < page ->
  query_on X i parsed q fields highlight limit page return_dict flt
           return_generator
  = Ok (mkQueryResult (no_hits return_generator)
          (Z.of_nat (length (matching i parsed flt)))).
Proof.
  intros Hl Hp Hc Hlt. unfold query_on, search_page, search, results_page.
  set (matched := matching i parsed flt) in *.
  set (N := Z.of_nat (length matched)) in *.
  destruct (ceil_div_pos N limit ltac:(lia)) as (c0 & Hc0 & H1 & H2).
  rewrite Hc0 in Hc. injection Hc as ->.
  assert (Hfin : forall l total, 1 <= l -> total = Z.min N l -> N <= l ->
    obind (ceil_div total limit) (fun pages =>
      let results := if page >? pages then []
                     else firstn (Z.to_nat l) matched in
      if return_generator then
        Ok (mkQueryResult
              (HitGenerator (map (process_result X q fields highlight return_dict) results))
              total)
      else
        obind (omap (process_result X q fields highlight return_dict) results)
              (fun hs => Ok (mkQueryResult (HitList hs) total)))
    = Ok (mkQueryResult (no_hits return_generator) N)).
  { intros l total Hl1 Htot HNl.
    destruct (ceil_div_pos total limit ltac:(lia)) as (c1 & Hc1 & H3 & H4).
    rewrite Hc1. cbn [obind].
    assert (Hgt : (page >? c1) = true) by (apply Z.gtb_lt; nia).
    rewrite Hgt. cbv zeta. replace total with N by lia.
    destruct return_generator; reflexivity. }
  destruct (page =? 1) eqn:Hp1.
  - apply Z.eqb_eq in Hp1. subst page.
    destruct (limit <? 1) eqn:E; [apply Z.ltb_lt in E; lia|].
    cbn [obind sr_scored_length sr_iter]. unfold scored_length. cbn [top_n].
    apply Hfin; [lia| |nia].
    rewrite scored_length_firstn by lia. reflexivity.
  - destruct (page <? 1) eqn:E1; [apply Z.ltb_lt in E1; lia|].
    destruct (page * limit <? 1) eqn:E2; [apply Z.ltb_lt in E2; nia|].
    cbn [obind]. fold N. unfold results_len. cbn [docset]. fold N.
    rewrite Hc0. cbn [obind sr_scored_length rp_results].
    unfold scored_length. cbn [top_n].
    rewrite scored_length_firstn by nia. fold N.
    destruct (ceil_div_pos (Z.min N (page * limit)) limit ltac:(lia))
      as (c1 & Hc1 & H3 & H4).
    rewrite Hc1. cbn [obind].
    assert (Hgt : (page >? c1) = true) by (apply Z.gtb_lt; nia).
    rewrite Hgt. replace (Z.min N (page * limit)) with N by nia.
    destruct return_generator; reflexivity.
Qed.

(** A limit of 0 is refused whatever the page: by [search_page] for a
    page below 1, which it tests first, and by the search otherwise. *)
Lemma query_on_limit_zero X i parsed q fields highlight page return_dict flt
    return_generator :
  query_on X i parsed q fields highlight 0 page return_dict flt
           return_generator
  = Raise (ValueError (if page <? 1 then "pagenum must be >= 1"
                       else "limit must be >= 1")).
Proof.
  unfold query_on, search_page, search.
  destruct (page =? 1) eqn:E1.
  - apply Z.eqb_eq in E1. subst page. reflexivity.
  - destruct (page <? 1); [reflexivity|].
    rewrite Z.mul_0_r. reflexivity.
Qed.

Lemma query_inv X q fields highlight limit page return_dict filters
    where_document return_generator e r e' :
  query X q fields highlight limit page return_dict filters where_document
        return_generator e = (Ok r, e') ->
  e' = e
  /\ exists h i parsed,
       ix (self e) = Some h /\ lookup_index e h = Some i
       /\ parse X (ix_schema i) fields (compose_query q where_document) = Ok parsed
       /\ query_on X i parsed (compose_query q where_document) fields highlight
                   limit page return_dict (compose_filter filters)
                   return_generator = Ok r.
Proof.
  intros H.
  destruct (ix (self e)) as [h|] eqn:Hix.
  2:{ unfold query in H. cbv beta iota delta [bind get_ix get_self ret raise] in H.
      rewrite Hix in H. discriminate. }
  destruct (lookup_index e h) as [i|] eqn:Hi.
  2:{ unfold query in H. rewrite (bind_ok _ _ _ _ _ (get_ix_ok _ _ Hix)) in H.
      unfold bind at 1, read_toc in H. rewrite Hi in H. discriminate. }
  destruct (parse X (ix_schema i) fields (compose_query q where_document))
    as [parsed|x] eqn:Hparse.
  2:{ unfold query in H. rewrite (bind_ok _ _ _ _ _ (get_ix_ok _ _ Hix)) in H.
      rewrite (bind_ok _ _ _ _ _ (read_toc_ok _ _ _ Hi)) in H.
      unfold bind at 1, lift, get_search_results in H. rewrite Hparse in H.
      discriminate. }
  rewrite (query_eq _ _ _ _ _ _ _ _ _ _ _ _ _ _ Hix Hi Hparse) in H.
  injection H as H <-. split; [reflexivity|]. now exists h, i, parsed.
Qed.

Lemma omap_total {A B} (f : A -> Outcome B) (l : list A) :
  (forall x, exists y, f x = Ok y) -> exists ys, omap f l = Ok ys.
Proof.
  intros Hf. induction l as [|x l [ys IH]]; [now exists []|].
  destruct (Hf x) as [y Hy]. exists (y :: ys). cbn [omap]. now rewrite Hy, IH.
Qed.

Lemma process_result_plain X q fields return_dict r :
  exists hit, process_result X q fields false return_dict r = Ok hit.
Proof. unfold process_result. cbn [obind]. eexists; reflexivity. Qed.

(** With a limit and a page of at least 1 the search itself raises
    nothing: a generator is always returned, and so is a list when no
    highlighting is asked for. *)
Lemma query_on_returns X i parsed q fields highlight limit page return_dict flt
    return_generator :
  1 <= limit -> 1 <= page ->
  return_generator = true \/ highlight = false ->
  exists r,
    query_on X i parsed q fields highlight limit page return_dict flt
             return_generator = Ok r.
Proof.
  intros Hl Hp Hmode. unfold query_on, search_page, search, results_page.
  set (matched := matching i parsed flt).
  assert (Hfin : forall results total,
    exists r,
      obind (ceil_div total limit) (fun pages =>
        let results := if page >? pages then [] else results in
        if return_generator then
          Ok (mkQueryResult
                (HitGenerator (map (process_result X q fields highlight return_dict) results))
                total)
        else
          obind (omap (process_result X q fields highlight return_dict) results)
                (fun hs => Ok (mkQueryResult (HitList hs) total)))
      = Ok r).
  { intros results total.
    destruct (ceil_div_pos total limit ltac:(lia)) as (c & Hc & _).
    rewrite Hc. cbn [obind]. cbv zeta.
    destruct Hmode as [-> | ->]; [eexists; reflexivity|].
    destruct return_generator; [eexists; reflexivity|].
    destruct (omap_total (process_result X q fields false return_dict)
                (if page >? c then [] else results)
                (process_result_plain X q fields return_dict)) as [hs Hhs].
    rewrite Hhs. eexists; reflexivity. }
  destruct (page =? 1) eqn:Hp1.
  - destruct (limit <? 1) eqn:E; [apply Z.ltb_lt in E; lia|].
    cbn [obind]. apply Hfin.
  - destruct (page <? 1) eqn:E1; [apply Z.ltb_lt in E1; lia|].
    destruct (page * limit <? 1) eqn:E2; [apply Z.ltb_lt in E2; nia|].
    cbn [obind].
    destruct (ceil_div_pos (results_len
                {| top_n := take (Z.to_nat (page * limit)) matched;
                   docset := matched |}) limit ltac:(lia)) as (c & Hc & _).
    rewrite Hc. cbn [obind]. apply Hfin.
Qed.

(** What [query] reports as [total_hits], on a readable index and a query
    text the parser accepts, for a limit and a page of at least 1. It is
    the number of matches among the best [page * limit], that is the
    smaller of the full match count and [page * limit]. On a page past
    [ceil(matches / limit)] the hit list is empty and [total_hits] is the
    full match count. The call returns whenever a generator is asked for
    or highlighting is off. *)
Theorem query_total_hits_window (X : Externals) (q : string)
    (fields : list string) (highlight : bool) (limit page : Z)
    (return_dict : bool) (filters : option (list (string * string)))
    (where_document : option string) (return_generator : bool) (e : Env)
    (h : Handle) (i : Index) (parsed : Query) :
  ix (self e) = Some h ->
  lookup_index e h = Some i ->
  parse X (ix_schema i) fields (compose_query q where_document) = Ok parsed ->
  1 <= limit -> 1 <= page ->
  (forall r e',
     query X q fields highlight limit page return_dict filters where_document
           return_generator e = (Ok r, e') ->
     total_hits r
     = Z.min (Z.of_nat (length (matching i parsed (compose_filter filters))))
             (page * limit))
  /\ (forall c,
        ceil_div (Z.of_nat (length (matching i parsed (compose_filter filters))))
                 limit = Ok c ->
        c < page ->
        query X q fields highlight limit page return_dict filters where_document
              return_generator e
        = (Ok (mkQueryResult (no_hits return_generator)
                 (Z.of_nat (length (matching i parsed (compose_filter filters))))),
           e))
  /\ (return_generator = true \/ highlight = false ->
      exists r,
        query X q fields highlight limit page return_dict filters where_document
              return_generator e = (Ok r, e)).
Proof.
  intros Hix Hi Hparse Hl Hp.
  rewrite (query_eq _ _ _ _ _ _ _ _ _ _ _ _ _ _ Hix Hi Hparse).
  split; [|split].
  - intros r e' H. injection H as H _.
    now apply query_on_total_hits in H.
  - intros c Hc Hlt. f_equal. now apply (query_on_beyond _ _ _ _ _ _ _ _ _ _ _ c).
  - intros Hmode.
    destruct (query_on_returns X i parsed (compose_query q where_document) fields
                highlight limit page return_dict (compose_filter filters)
                return_generator Hl Hp Hmode) as [r Hr].
    exists r. now rewrite Hr.
Qed.

Lemma query_total_hits_window_witness :
  total_of (query demo_externals "cat" ["page_content"] true 2 2 true None None
                  false (disk_env demo_index [])) = Ok (Z.min 3 (2 * 2))
  /\ query demo_externals "cat" ["page_content"] true 2 3 true None None false
           (disk_env demo_index [])
     = (Ok (mkQueryResult (HitList []) 3), disk_env demo_index []).
Proof.
  pose proof (fun page Hp => query_total_hits_window demo_externals "cat"
                ["page_content"] true 2 page true None None false
                (disk_env demo_index [])
                (mkHandle (FileStorage "/data") "myindex") demo_index
                (List.filter (fun d => existsb (fun f => has_term f "cat" d)
                                               ["page_content"]))
                eq_refl eq_refl eq_refl ltac:(lia) Hp) as H.
  split.
  - destruct (H 2 ltac:(lia)) as (H1 & _ & _).
    destruct (query demo_externals "cat" ["page_content"] true 2 2 true None None
                    false (disk_env demo_index [])) as [[r|x] e'] eqn:E.
    + unfold total_of. cbn [fst obind]. f_equal. exact (H1 r e' eq_refl).
    + vm_compute in E. discriminate.
  - destruct (H 3 ltac:(lia)) as (_ & H2 & _).
    exact (H2 2 eq_refl ltac:(lia)).
Defined.

(** C1, where the code departs from it: the index holds three documents
    that match the query; with [limit=2] the first page reports
    [total_hits = 2] and the second [total_hits = 3], because [total_hits]
    is taken from [scored_length()], the number of scored hits, which the
    search caps at [limit] (at [page * limit] for a later page). *)
Theorem total_hits_capped_by_limit :
  obind (parse demo_externals DEFAULT_SCHEMA ["page_content"] "cat")
        (fun parsed => Ok (length (matching demo_index parsed None))) = Ok 3%nat
  /\ total_of (query demo_externals "cat" ["page_content"] true 2 1 true None
                     None false (disk_env demo_index [])) = Ok 2
  /\ hit_count_of (query demo_externals "cat" ["page_content"] true 2 1 true
                         None None false (disk_env demo_index [])) = Ok 2%nat
  /\ total_of (query demo_externals "cat" ["page_content"] true 2 2 true None
                     None false (disk_env demo_index [])) = Ok 3
  /\ total_of (query demo_externals "cat" ["page_content"] true 10 1 true None
                     None false (disk_env demo_index [])) = Ok 3.
Proof. repeat split; vm_compute; reflexivity. Qed.

(** C9, as the code has it: a call with [limit=0] never returns a result
    set, in any state of the store; on a readable index and a query text the
    parser accepts it raises a [ValueError], and that before
    [ceil(total_hits/limit)] is evaluated: for a page of at least 1 the one
    with which the engine's search refuses a limit below 1, for a page
    below 1 the one with which [search_page] refuses the page; and [query]
    returns only for a limit and a page of at least 1. *)
Theorem query_limit_zero_refused (X : Externals) (q : string)
    (fields : list string) (highlight : bool) (page : Z) (return_dict : bool)
    (filters : option (list (string * string)))
    (where_document : option string) (return_generator : bool) (e : Env) :
  (forall r,
     fst (query X q fields highlight 0 page return_dict filters where_document
                return_generator e) <> Ok r)
  /\ (forall h i parsed,
        ix (self e) = Some h -> lookup_index e h = Some i ->
        parse X (ix_schema i) fields (compose_query q where_document) = Ok parsed ->
        query X q fields highlight 0 page return_dict filters where_document
              return_generator e
        = (Raise (ValueError (if page <? 1 then "pagenum must be >= 1"
                              else "limit must be >= 1")), e))
  /\ (forall limit r e',
        query X q fields highlight limit page return_dict filters where_document
              return_generator e = (Ok r, e') ->
        1 <= limit /\ 1 <= page).
Proof.
  assert (Hret : forall limit r e',
    query X q fields highlight limit page return_dict filters where_document
          return_generator e = (Ok r, e') -> 1 <= limit /\ 1 <= page).
  { intros limit r e' H.
    destruct (query_inv _ _ _ _ _ _ _ _ _ _ _ _ _ H) as (_ & h & i & parsed & _ & _ & _ & Hon).
    apply query_on_total_hits in Hon. tauto. }
  split; [|split; [|exact Hret]].
  - intros r Hr.
    destruct (query X q fields highlight 0 page return_dict filters where_document
                    return_generator e) as [o e'] eqn:E.
    cbn [fst] in Hr. subst o. apply Hret in E. lia.
  - intros h i parsed Hix Hi Hparse.
    rewrite (query_eq _ _ _ _ _ _ _ _ _ _ _ _ _ _ Hix Hi Hparse).
    now rewrite query_on_limit_zero.
Qed.

Lemma query_limit_zero_refused_witness :
  query demo_externals "cat" ["page_content"] true 0 2 true None None false
        (disk_env demo_index [])
  = (Raise (ValueError "limit must be >= 1"), disk_env demo_index [])
  /\ query demo_externals "cat" ["page_content"] true 0 0 true None None false
           (disk_env demo_index [])
     = (Raise (ValueError "pagenum must be >= 1"), disk_env demo_index []).
Proof.
  split.
  - exact (proj1 (proj2 (query_limit_zero_refused demo_externals "cat"
             ["page_content"] true 2 true None None false (disk_env demo_index [])))
           (mkHandle (FileStorage "/data") "myindex") demo_index
           (List.filter (fun d => existsb (fun f => has_term f "cat" d)
                                          ["page_content"]))
           eq_refl eq_refl eq_refl).
  - exact (proj1 (proj2 (query_limit_zero_refused demo_externals "cat"
             ["page_content"] true 0 true None None false (disk_env demo_index [])))
           (mkHandle (FileStorage "/data") "myindex") demo_index
           (List.filter (fun d => existsb (fun f => has_term f "cat" d)
                                          ["page_content"]))
           eq_refl eq_refl eq_refl).
Defined.

(** C9, as stated, fails: with [limit=0] the error raised is the engine's
    [ValueError], not a division by zero. *)
Lemma query_limit_zero_is_value_error :
  fst (query demo_externals "cat" ["page_content"] true 0 1 true None None false
             (disk_env demo_index []))
  = Raise (ValueError "limit must be >= 1")
  /\ (Raise (ValueError "limit must be >= 1") : Outcome QueryResult)
     <> Raise ZeroDivisionError.
Proof. split; [reflexivity|discriminate]. Qed.

(** ** Deleting by prefix *)

Lemma filter_all {A} (l : list A) : List.filter (fun _ => true) l = l.
Proof. induction l as [|x l IH]; [reflexivity|]. cbn. now rewrite IH. Qed.

Lemma filter_split_length {A} (f : A -> bool) (l : list A) :
  (length (List.filter f l) + length (List.filter (fun x => negb (f x)) l))%nat
  = length l.
Proof.
  induction l as [|x l IH]; [reflexivity|].
  cbn [List.filter]. destruct (f x); cbn [negb length]; lia.
Qed.

Lemma docnum_injective (docs : list IxDoc) d d' :
  NoDup (map docnum docs) -> In d docs -> In d' docs ->
  docnum d = docnum d' -> d = d'.
Proof.
  induction docs as [|x docs IH]; [easy|].
  cbn [map]. intros Hnd [->|Hd] [->|Hd'] Heq.
  - reflexivity.
  - apply NoDup_cons in Hnd as [Hx _]. exfalso. apply Hx.
    apply list_elem_of_In. rewrite Heq. now apply in_map.
  - apply NoDup_cons in Hnd as [Hx _]. exfalso. apply Hx.
    apply list_elem_of_In. rewrite <- Heq. now apply in_map.
  - apply NoDup_cons in Hnd as [_ Hnd]. now apply IH.
Qed.

Lemma delete_documents_docs (doomed : list IxDoc) (i : Index) :
  ix_docs (fold_left (fun i hit => delete_document (docnum hit) i) doomed i)
  = List.filter
      (fun d => negb (existsb (Nat.eqb (docnum d)) (map docnum doomed)))
      (ix_docs i).
Proof.
  revert i. induction doomed as [|x doomed IH]; intros i; cbn [fold_left map existsb].
  - now rewrite filter_all.
  - rewrite IH. cbn [delete_document ix_docs].
    induction (ix_docs i) as [|d docs IHd]; [reflexivity|].
    cbn [List.filter].
    destruct (Nat.eqb (docnum d) (docnum x)); cbn [negb orb List.filter];
      [exact IHd|].
    destruct (existsb _ _); cbn [negb]; now rewrite IHd.
Qed.

Lemma delete_documents_schema (doomed : list IxDoc) (i : Index) :
  ix_schema (fold_left (fun i hit => delete_document (docnum hit) i) doomed i)
  = ix_schema i.
Proof.
  revert i. induction doomed as [|x doomed IH]; intros i; [reflexivity|].
  cbn [fold_left]. now rewrite IH.
Qed.

(** Deleting the matches of a predicate by their numbers leaves the
    documents that do not match it. *)
Lemma delete_matches (P : IxDoc -> bool) (i : Index) :
  NoDup (map docnum (ix_docs i)) ->
  ix_docs (fold_left (fun i hit => delete_document (docnum hit) i)
                     (List.filter P (ix_docs i)) i)
  = List.filter (fun d => negb (P d)) (ix_docs i).
Proof.
  intros Hnd. rewrite delete_documents_docs.
  apply List.filter_ext_in. intros d Hd. f_equal.
  destruct (P d) eqn:HP.
  - apply existsb_exists. exists (docnum d). split; [|apply Nat.eqb_refl].
    apply in_map. apply List.filter_In. now split.
  - apply not_true_is_false. intros Hex.
    apply existsb_exists in Hex as (n & Hn & Heq).
    apply Nat.eqb_eq in Heq. subst n.
    apply in_map_iff in Hn as (d' & Heq & Hd').
    apply List.filter_In in Hd' as [Hd' HP'].
    assert (d = d') by (apply (docnum_injective (ix_docs i)); auto).
    subst d'. congruence.
Qed.

Lemma write_toc_ok (h : Handle) (i i' : Index) (e : Env) :
  lookup_index e h = Some i ->
  exists e', write_toc h i' e = (Ok tt, e')
    /\ lookup_index e' h = Some i' /\ self e' = self e.
Proof.
  unfold lookup_index, write_toc, storage_of. intros Hi.
  destruct (h_storage h) as [d|n] eqn:Hs.
  - destruct (disk e !! d) as [st|] eqn:Hd; [|discriminate].
    eexists. split; [reflexivity|]. split; [|reflexivity].
    cbn [set_disk disk]. now rewrite !lookup_insert_eq.
  - destruct (ram e !! n) as [st|] eqn:Hr; [|discriminate].
    eexists. split; [reflexivity|]. split; [|reflexivity].
    cbn [set_ram ram].
    rewrite list_lookup_insert_eq by (eapply lookup_lt_Some; eassumption).
    now rewrite lookup_insert_eq.
Qed.

Lemma commit_ok (X : Externals) (h : Handle) (optimize : bool)
    (i writer : Index) (e : Env) :
  lookup_index e h = Some i ->
  exists e' i',
    commit X h optimize writer e = (Ok tt, e')
    /\ lookup_index e' h = Some i'
    /\ self e' = self e
    /\ ix_docs i' = ix_docs writer
    /\ ix_schema i' = ix_schema writer
    /\ e' = snd (write_toc h i' e).
Proof.
  intros Hi. unfold commit.
  set (final := mkIndex (ix_schema writer) (ix_docs writer)
                        (if optimize then 0 else ix_deleted writer - merged_away X writer)%nat).
  destruct (write_toc_ok h i final e Hi) as (e' & Hw & Hlook & Hself).
  exists e', final. rewrite Hw. now repeat split.
Qed.

Lemma to_bytes_text (X : Externals) (k : FieldKind) (text : string) :
  text_kind k = true -> to_bytes X k text = Ok text.
Proof. intros H. unfold to_bytes. now rewrite H. Qed.

(** The documents [delete_by_prefix] deletes, for a field of the schema
    and a prefix the field can encode: those with a term in the field that
    starts with the encoded prefix. *)
Lemma delete_by_prefix_eq X prefix field optimize e h i f term :
  ix (self e) = Some h -> lookup_index e h = Some i ->
  schema_field (ix_schema i) field = Some f ->
  to_bytes X (f_kind f) prefix = Ok term ->
  delete_by_prefix X prefix field optimize e
  = let doomed := List.filter (has_prefix_term field term) (ix_docs i) in
    if 0 <? Z.of_nat (length doomed) then
      bind (commit X h optimize
              (fold_left (fun i hit => delete_document (docnum hit) i) doomed i))
           (fun _ => ret (Z.of_nat (length doomed))) e
    else (Ok 0, e).
Proof.
  intros Hix Hi Hf Hterm. unfold delete_by_prefix.
  rewrite (bind_ok _ _ _ _ _ (get_ix_ok _ _ Hix)).
  rewrite (bind_ok _ _ _ _ _ (read_toc_ok _ _ _ Hi)).
  unfold prefix_search. rewrite Hf, Hterm. cbn [obind].
  unfold search, matching, Prefix, passes. rewrite filter_all.
  unfold bind at 1, lift. unfold results_len. cbn [docset top_n]. cbv zeta.
  destruct (0 <? _); [|reflexivity].
  now rewrite (bind_ok _ _ _ _ _ (read_toc_ok _ _ _ Hi)).
Qed.





(** ** Semantic search *)

Lemma omap_Forall2 {A B} (f : A -> Outcome B) (l : list A) (ys : list B) :
  omap f l = Ok ys -> Forall2 (fun x y => f x = Ok y) l ys.
Proof.
  revert ys. induction l as [|x l IH]; intros ys H; cbn [omap] in H.
  - injection H as <-. constructor.
  - destruct (f x) as [y|] eqn:Hy; cbn [obind] in H; [|discriminate].
    destruct (omap f l) as [ys'|]; cbn [obind] in H; [|discriminate].
    injection H as <-. constructor; auto.
Qed.

Lemma omap_length {A B} (f : A -> Outcome B) (l : list A) (ys : list B) :
  omap f l = Ok ys -> length ys = length l.
Proof. intros H. apply omap_Forall2 in H. symmetry. eapply Forall2_length, H. Qed.

(** A hit of a highlighted [return_dict] query over [page_content] is a
    dict that holds the document's [page_content]. *)
Lemma process_result_page_content X q r hit :
  process_result X q ["page_content"] true true r = Ok hit ->
  exists d v, hit = HitDict d /\ d !! "page_content" = Some v
              /\ stored_fields r !! "page_content" = Some v.
Proof.
  unfold process_result. cbn [fold_left obind].
  destruct (stored_fields r !! "page_content") as [v|] eqn:Hv; [|discriminate].
  assert (Hhl : forall w, <["hl_" ++ "page_content" := w]> (stored_fields r)
                          !! "page_content" = Some v).
  { intros w. rewrite lookup_insert_ne by discriminate. exact Hv. }
  destruct v as [| | | |text|]; cbn [obind];
    try (intros H; injection H as <-; eauto).
  destruct (str_truthy text); cbn [obind]; intros H; injection H as <-; eauto.
Qed.

Lemma hit_text_pool X q (docs : list IxDoc) (hs : list Hit) :
  omap (process_result X q ["page_content"] true true) docs = Ok hs ->
  exists pool : list (gmap string PyVal * PyVal),
    hs = map (fun dv => HitDict (fst dv)) pool
    /\ omap hit_text hs = Ok pool
    /\ Forall (fun dv => fst dv !! "page_content" = Some (snd dv)) pool.
Proof.
  revert hs. induction docs as [|r docs IH]; intros hs H; cbn [omap] in H.
  - injection H as <-. exists []. repeat split. constructor.
  - destruct (process_result _ _ _ _ _ r) as [hit|] eqn:Hr; cbn [obind] in H;
      [|discriminate].
    destruct (omap _ docs) as [hs'|]; cbn [obind] in H; [|discriminate].
    injection H as <-.
    destruct (process_result_page_content _ _ _ _ Hr) as (d & v & -> & Hd & _).
    destruct (IH hs' eq_refl) as (pool & -> & Hpool & Hall).
    exists ((d, v) :: pool). cbn [map fst omap hit_text].
    rewrite Hd. cbn [obind]. rewrite Hpool. cbn [obind].
    repeat split. now constructor.
Qed.

Lemma attach_scores_map X q (pool : list (gmap string PyVal * PyVal)) :
  attach_scores (map fst pool) (map (cos_sim X q) (map snd pool))
  = map (fun dv => (cos_sim X q (snd dv),
                    <["score" := VFloat (cos_sim X q (snd dv))]> (fst dv))) pool.
Proof.
  induction pool as [|dv pool IH]; [reflexivity|].
  cbn [map attach_scores]. now rewrite IH.
Qed.

Lemma insert_desc_In x y l : In y (insert_desc x l) <-> y = x \/ In y l.
Proof.
  induction l as [|z l IH]; cbn [insert_desc In]; [intuition congruence|].
  destruct (Qle_bool (fst z) (fst x)); cbn [In]; [intuition congruence|].
  rewrite IH. intuition congruence.
Qed.

Lemma sorted_desc_In y l : In y (sorted_desc l) <-> In y l.
Proof.
  induction l as [|x l IH]; cbn [sorted_desc fold_right In]; [tauto|].
  fold (sorted_desc l). rewrite insert_desc_In, IH. intuition congruence.
Qed.

Lemma insert_desc_length x l : length (insert_desc x l) = S (length l).
Proof.
  induction l as [|z l IH]; cbn [insert_desc length]; [reflexivity|].
  destruct (Qle_bool (fst z) (fst x)); cbn [length]; [reflexivity|].
  now rewrite IH.
Qed.

Lemma sorted_desc_length l : length (sorted_desc l) = length l.
Proof.
  induction l as [|x l IH]; [reflexivity|].
  cbn [sorted_desc fold_right]. fold (sorted_desc l).
  now rewrite insert_desc_length, IH.
Qed.

Lemma non_increasing_cons x l :
  non_increasing (x :: l)
  <-> (forall y, head l = Some y -> (y <= x)%Q) /\ non_increasing l.
Proof.
  cbn [non_increasing]. destruct l as [|y l]; cbn [head].
  - split; [intros [_ H]; split; [discriminate|exact H]|tauto].
  - split.
    + intros [H1 H2]. split; [|exact H2]. intros y' Hy. now injection Hy as <-.
    + intros [H1 H2]. split; [|exact H2]. now apply H1.
Qed.

Lemma insert_desc_sorted x l :
  non_increasing (map fst l) -> non_increasing (map fst (insert_desc x l)).
Proof.
  induction l as [|z l IH]; intros Hs; [cbn; tauto|].
  cbn [insert_desc]. destruct (Qle_bool (fst z) (fst x)) eqn:Hle.
  - cbn [map]. apply non_increasing_cons. split; [|exact Hs].
    cbn [head]. intros y Hy. injection Hy as <-. now apply Qle_bool_iff.
  - cbn [map] in *. apply non_increasing_cons in Hs as [Hhd Htl].
    apply non_increasing_cons. split; [|now apply IH].
    assert (Hxz : (fst x <= fst z)%Q).
    { apply Qnot_lt_le. intros Hlt. apply Qlt_le_weak in Hlt.
      apply Qle_bool_iff in Hlt. congruence. }
    destruct l as [|w l]; cbn [insert_desc map head].
    + intros y Hy. now injection Hy as <-.
    + destruct (Qle_bool (fst w) (fst x)); cbn [map head];
        intros y Hy; injection Hy as <-; [exact Hxz|].
      apply Hhd. reflexivity.
Qed.

Lemma sorted_desc_sorted l : non_increasing (map fst (sorted_desc l)).
Proof.
  induction l as [|x l IH]; [exact I|].
  cbn [sorted_desc fold_right]. fold (sorted_desc l). now apply insert_desc_sorted.
Qed.

Lemma non_increasing_firstn n l : non_increasing l -> non_increasing (firstn n l).
Proof.
  revert l. induction n as [|n IH]; intros l Hs; [exact I|].
  destruct l as [|x l]; [exact I|].
  cbn [firstn]. apply non_increasing_cons in Hs as [Hhd Htl].
  apply non_increasing_cons. split; [|now apply IH].
  intros y Hy. apply Hhd. destruct n, l; cbn in *; congruence.
Qed.

(** [l[:k]] for a [k] that is not negative. *)
Lemma py_slice_prefix {A} (l : list A) (k : Z) :
  0 <= k -> py_slice l 0 k = firstn (Z.to_nat k) l.
Proof.
  intros Hk. unfold py_slice, clip_index.
  destruct (0 <? 0) eqn:E0; [discriminate|].
  destruct (k <? 0) eqn:Ek; [apply Z.ltb_lt in Ek; lia|].
  replace (Z.to_nat (Z.min 0 (Z.of_nat (length l)))) with 0%nat by lia.
  rewrite skipn_O.
  destruct (Z.le_gt_cases k (Z.of_nat (length l))) as [Hle|Hgt].
  - f_equal. lia.
  - replace (Z.to_nat (Z.min k (Z.of_nat (length l)) - Z.min 0 (Z.of_nat (length l))))
      with (length l) by lia.
    rewrite firstn_all. symmetry. apply firstn_all2. lia.
Qed.

Lemma In_firstn_In {A} (n : nat) (l : list A) (x : A) :
  In x (firstn n l) -> In x l.
Proof.
  revert l. induction n as [|n IH]; intros [|y l]; cbn [firstn In]; try tauto.
  intros [->|H]; [now left|right; now apply IH].
Qed.

(** C6: [semantic_search] on top of the lexical query it runs (limit
    [n_candidates], first page, dict hits). Whenever that query returns, its
    hits are the candidate pool: at most [n_candidates] dicts, each holding
    its [page_content]. For [k >= 0] the search then returns documents made
    from at most [k] candidates of the pool, each with its cosine similarity
    to the query stored under [score], in order of non-increasing score.
    With an empty pool it returns the empty list and the embedding provider
    is not called; otherwise the provider is called once, on the texts of
    the pool. *)
Theorem semantic_search_rerank (X : Externals) (q : string) (k n_candidates : Z)
    (filters : option (list (string * string)))
    (where_document : option string) (e : Env) (r : QueryResult) (e' : Env) :
  query X q ["page_content"] true n_candidates 1 true filters where_document
        false e = (Ok r, e') ->
  0 <= k ->
  exists (pool : list (gmap string PyVal * PyVal))
         (ranked : list (Q * gmap string PyVal)) (e'' : Env),
    hits r = HitList (map (fun dv => HitDict (fst dv)) pool)
    /\ Forall (fun dv => fst dv !! "page_content" = Some (snd dv)) pool
    /\ Z.of_nat (length pool) <= n_candidates
    /\ semantic_search X q k n_candidates filters where_document e
       = (Ok (map (fun sd => doc_from_dict X (snd sd)) ranked), e'')
    /\ Z.of_nat (length ranked) <= k
    /\ (forall sd, In sd ranked ->
          exists dv, In dv pool
            /\ sd = (cos_sim X q (snd dv),
                     <["score" := VFloat (cos_sim X q (snd dv))]> (fst dv)))
    /\ non_increasing (map fst ranked)
    /\ (pool = [] -> ranked = [] /\ e'' = e)
    /\ (pool <> [] ->
        provider_calls e'' = (provider_calls e ++ [(q, map snd pool)])%list).
Proof.
  intros Hq Hk.
  destruct (query_inv _ _ _ _ _ _ _ _ _ _ _ _ _ Hq)
    as (-> & h & i & parsed & Hix & Hi & Hparse & Hon).
  pose proof (query_on_total_hits _ _ _ _ _ _ _ _ _ _ _ _ Hon) as (Hn & _ & _).
  rewrite (query_on_first_page X i parsed _ _ _ _ _ _ Hn) in Hon.
  set (matched := matching i parsed (compose_filter filters)) in *.
  destruct (omap _ (firstn (Z.to_nat n_candidates) matched)) as [hs|] eqn:Hhs;
    cbn [obind] in Hon; [|discriminate].
  injection Hon as <-.
  destruct (hit_text_pool _ _ _ _ Hhs) as (pool & -> & Hpool & Hall).
  assert (Hlen : Z.of_nat (length pool) <= n_candidates).
  { apply omap_length in Hhs. rewrite length_map in Hhs. rewrite Hhs.
    rewrite length_firstn. clear - Hn. lia. }
  unfold semantic_search. rewrite (bind_ok _ _ _ _ _ Hq). cbn [hits].
  destruct pool as [|dv pool].
  - exists [], [], e. cbn [map].
    split; [reflexivity|]. split; [exact Hall|]. split; [exact Hlen|].
    split; [reflexivity|]. split; [exact Hk|].
    split; [intros sd []|]. split; [exact I|].
    split; [now split|congruence].
  - cbn [map]. change (HitDict (fst dv) :: map (fun dv => HitDict (fst dv)) pool)
      with (map (fun dv => HitDict (fst dv)) (dv :: pool)) in *.
    set (pool' := dv :: pool) in *.
    unfold bind at 1, lift. rewrite Hpool.
    unfold bind, embed_and_score, ret. rewrite attach_scores_map.
    rewrite py_slice_prefix by exact Hk.
    set (scored := map (fun dv => (cos_sim X q (snd dv),
                     <["score" := VFloat (cos_sim X q (snd dv))]> (fst dv))) pool').
    eexists pool', (firstn (Z.to_nat k) (sorted_desc scored)), _.
    split; [reflexivity|]. split; [exact Hall|]. split; [exact Hlen|].
    split; [reflexivity|]. split; [rewrite length_firstn; lia|].
    split; [|split; [|split]].
    + intros sd Hsd. apply In_firstn_In in Hsd.
      apply (proj1 (sorted_desc_In _ _)) in Hsd.
      apply in_map_iff in Hsd as (dv0 & <- & Hdv). now exists dv0.
    + rewrite <- firstn_map. apply non_increasing_firstn, sorted_desc_sorted.
    + subst pool'. discriminate.
    + intros _. reflexivity.
Qed.

Lemma semantic_search_rerank_witness :
  exists docs e'',
    semantic_search demo_externals "cat" 2 50 None None (disk_env demo_index [])
    = (Ok docs, e'')
    /\ (length docs <= 2)%nat.
Proof.
  destruct (query demo_externals "cat" ["page_content"] true 50 1 true None None
                  false (disk_env demo_index [])) as [[r|x] e'] eqn:Hq;
    [|vm_compute in Hq; discriminate].
  destruct (semantic_search_rerank demo_externals "cat" 2 50 None None
              (disk_env demo_index []) r e' Hq ltac:(lia))
    as (pool & ranked & e'' & _ & _ & _ & Hs & Hlen & _).
  exists (map (fun sd => doc_from_dict demo_externals (snd sd)) ranked), e''.
  split; [exact Hs|]. rewrite length_map. lia.
Defined.

(** Equal scores keep the order of the lexical hits. *)
Example semantic_search_demo :
  obind (fst (semantic_search demo_externals "cat" 2 50 None None
                (disk_env demo_index [])))
        (fun docs => Ok (map page_content docs))
  = Ok ["the cat sat"; "cat and dog"].
Proof. vm_compute. reflexivity. Qed.

Lemma doc2dict_field_rules_witness :
  doc2dict_step (stored_names DEFAULT_SCHEMA) ∅ ("source", VStr "/a/x.pdf")
  = <["source" := VStr "/a/x.pdf"]> ∅
  /\ doc2dict_step (stored_names DEFAULT_SCHEMA) ∅ ("draft", VBool true)
     = <["draft_b" := VBool true]> ∅
  /\ doc2dict_step (stored_names DEFAULT_SCHEMA) ∅ ("due_date", VStr "2024-01-01")
     = <["due_date_d" := VStr "2024-01-01"]> ∅
  /\ doc2dict_step (stored_names DEFAULT_SCHEMA) ∅ ("author", VStr "ann")
     = <["author_k" := VStr "ann"]> ∅
  /\ doc2dict_step (stored_names DEFAULT_SCHEMA) ∅ ("pages_n", VInt 3)
     = <["pages_n" := VInt 3]> ∅
  /\ doc2dict_step (stored_names DEFAULT_SCHEMA) ∅ ("extra", VNone) = ∅.
Proof.
  pose proof (fun k => doc2dict_field_rules demo_externals
                (stored_names DEFAULT_SCHEMA) ∅ k) as H.
  split; [exact (proj1 (H "source") (VStr "/a/x.pdf") eq_refl)|].
  split; [exact (proj1 (proj2 (H "draft")) true eq_refl)|].
  split; [exact (proj1 (proj2 (proj2 (H "due_date"))) "2024-01-01" eq_refl eq_refl)|].
  split; [exact (proj1 (proj2 (proj2 (proj2 (H "author")))) "ann" eq_refl eq_refl)|].
  split; [exact (proj1 (proj2 (proj2 (proj2 (proj2 (H "pages_n"))))) 3 eq_refl)|].
  exact (proj1 (proj2 (proj2 (proj2 (proj2 (proj2 (proj2 (H "extra")))))))
           VNone eq_refl eq_refl eq_refl eq_refl).
Defined.

(** ** The hits of a page *)

Lemma skipn_firstn_window {A} (l : list A) (a n : nat) :
  skipn a (firstn (a + n) l) = firstn n (skipn a l).
Proof.
  revert l. induction a as [|a IH]; intros l; [reflexivity|].
  destruct l as [|x l]; [destruct n; reflexivity|].
  cbn [Nat.add firstn skipn]. apply IH.
Qed.

Lemma firstn_short {A} (l : list A) (n m : nat) :
  (length l <= n)%nat -> (length l <= m)%nat -> firstn n l = firstn m l.
Proof. intros Hn Hm. now rewrite !firstn_all2. Qed.

(** The window that [ResultsPage] cuts out of the best [page * limit]
    matches is the [page]-th run of [limit] matches. *)
Lemma page_window (matched : list IxDoc) (limit page c : Z) :
  1 <= limit -> 1 <= page ->
  ceil_div (Z.of_nat (length matched)) limit = Ok c -> page <= c ->
  let N := Z.of_nat (length matched) in
  let offset := (Z.min c page - 1) * limit in
  let pagelen := if offset + limit >? N then N - offset else limit in
  py_slice (firstn (Z.to_nat (page * limit)) matched) offset (offset + pagelen)
  = firstn (Z.to_nat limit) (skipn (Z.to_nat ((page - 1) * limit)) matched).
Proof.
  intros Hl Hp Hc Hpc. cbv zeta.
  set (N := Z.of_nat (length matched)).
  destruct (ceil_div_pos N limit ltac:(lia)) as (c0 & Hc0 & H1 & H2).
  fold N in Hc. rewrite Hc0 in Hc. injection Hc as ->.
  replace (Z.min c page) with page by lia.
  set (offset := (page - 1) * limit).
  assert (Hoff : 0 <= offset < N) by (subst offset; nia).
  unfold py_slice, clip_index.
  rewrite length_firstn.
  replace (Z.of_nat (Nat.min (Z.to_nat (page * limit)) (length matched)))
    with (Z.min (page * limit) N) by (subst N; lia).
  destruct (offset <? 0) eqn:E1; [apply Z.ltb_lt in E1; lia|].
  replace (Z.min offset (Z.min (page * limit) N)) with offset by (subst offset; nia).
  replace (Z.to_nat (page * limit)) with (Z.to_nat offset + Z.to_nat limit)%nat
    by (subst offset; nia).
  rewrite skipn_firstn_window.
  set (rest := skipn (Z.to_nat offset) matched).
  assert (Hrest : Z.of_nat (length rest) = N - offset)
    by (subst rest N; rewrite length_skipn; lia).
  destruct (offset + limit >? N) eqn:E2.
  - apply Z.gtb_lt in E2.
    replace (offset + (N - offset)) with N by lia.
    destruct (N <? 0) eqn:E3; [apply Z.ltb_lt in E3; lia|].
    rewrite firstn_firstn. apply firstn_short; subst offset; nia.
  - assert (E2' : offset + limit <= N)
      by (rewrite Z.gtb_ltb in E2; apply Z.ltb_ge in E2; exact E2).
    destruct (offset + limit <? 0) eqn:E3; [apply Z.ltb_lt in E3; lia|].
    rewrite firstn_firstn. f_equal. subst offset. nia.
Qed.

Lemma query_on_page X i parsed q fields highlight limit page return_dict flt c :
  1 <= limit -> 1 <= page ->
  ceil_div (Z.of_nat (length (matching i parsed flt))) limit = Ok c ->
  page <= c ->
  query_on X i parsed q fields highlight limit page return_dict flt false
  = obind (omap (process_result X q fields highlight return_dict)
                (firstn (Z.to_nat limit)
                        (skipn (Z.to_nat ((page - 1) * limit))
                               (matching i parsed flt))))
          (fun hs =>
             Ok (mkQueryResult (HitList hs)
                   (Z.min (Z.of_nat (length (matching i parsed flt)))
                          (page * limit)))).
Proof.
  intros Hl Hp Hc Hpc.
  destruct (page =? 1) eqn:Hp1.
  - apply Z.eqb_eq in Hp1. subst page.
    rewrite query_on_first_page by exact Hl.
    change (Z.to_nat ((1 - 1) * limit)) with 0%nat. rewrite skipn_O.
    now rewrite Z.mul_1_l.
  - unfold query_on, search_page, search, results_page. rewrite Hp1.
    set (matched := matching i parsed flt) in *.
    set (N := Z.of_nat (length matched)) in *.
    destruct (ceil_div_pos N limit ltac:(lia)) as (c0 & Hc0 & H1 & H2).
    rewrite Hc0 in Hc. injection Hc as ->.
    destruct (page <? 1) eqn:E1; [apply Z.ltb_lt in E1; lia|].
    destruct (page * limit <? 1) eqn:E2; [apply Z.ltb_lt in E2; nia|].
    cbn [obind]. unfold results_len. cbn [docset]. fold N.
    rewrite Hc0. cbn [obind sr_scored_length rp_results sr_iter rp_offset rp_pagelen].
    unfold scored_length. cbn [top_n].
    rewrite scored_length_firstn by nia. fold N.
    destruct (ceil_div_pos (Z.min N (page * limit)) limit ltac:(lia))
      as (c1 & Hc1 & H3 & H4).
    rewrite Hc1. cbn [obind].
    assert (Hgt : (page >? c1) = false)
      by (rewrite Z.gtb_ltb; apply Z.ltb_ge; nia).
    rewrite Hgt.
    pose proof (page_window matched limit page c Hl Hp Hc0 Hpc) as Hwin.
    cbv zeta in Hwin. fold N in Hwin. now rewrite Hwin.
Qed.

(** The hits of page [page], for [1 <= page <= ceil(matches / limit)], on a
    readable index and a query text the parser accepts: the matches from
    position [(page - 1) * limit] on, at most [limit] of them, in their
    ranking order, each processed. Consecutive pages therefore cover the
    matches without gap or overlap. *)
Theorem query_page_hits (X : Externals) (q : string) (fields : list string)
    (highlight : bool) (limit page : Z) (return_dict : bool)
    (filters : option (list (string * string)))
    (where_document : option string) (e : Env) (h : Handle) (i : Index)
    (parsed : Query) (c : Z) :
  ix (self e) = Some h ->
  lookup_index e h = Some i ->
  parse X (ix_schema i) fields (compose_query q where_document) = Ok parsed ->
  1 <= limit -> 1 <= page ->
  ceil_div (Z.of_nat (length (matching i parsed (compose_filter filters)))) limit
    = Ok c ->
  page <= c ->
  query X q fields highlight limit page return_dict filters where_document
        false e
  = (obind (omap (process_result X (compose_query q where_document) fields
                                 highlight return_dict)
                 (firstn (Z.to_nat limit)
                         (skipn (Z.to_nat ((page - 1) * limit))
                                (matching i parsed (compose_filter filters)))))
           (fun hs =>
              Ok (mkQueryResult (HitList hs)
                    (Z.min (Z.of_nat (length (matching i parsed
                                                (compose_filter filters))))
                           (page * limit)))),
     e).
Proof.
  intros Hix Hi Hparse Hl Hp Hc Hpc.
  rewrite (query_eq _ _ _ _ _ _ _ _ _ _ _ _ _ _ Hix Hi Hparse).
  f_equal. now apply (query_on_page _ _ _ _ _ _ _ _ _ _ c).
Qed.

Lemma query_page_hits_witness :
  hit_count_of (query demo_externals "cat" ["page_content"] true 2 2 true None
                      None false (disk_env demo_index [])) = Ok 1%nat.
Proof.
  rewrite (query_page_hits demo_externals "cat" ["page_content"] true 2 2 true
             None None (disk_env demo_index [])
             (mkHandle (FileStorage "/data") "myindex") demo_index
             (List.filter (fun d => existsb (fun f => has_term f "cat" d)
                                            ["page_content"]))
             2 eq_refl eq_refl eq_refl ltac:(lia) ltac:(lia) eq_refl ltac:(lia)).
  reflexivity.
Defined.

(** ** Removing documents by a field's term *)

(** [remove_document(value, field)] deletes exactly the documents that have
    the term [value] in [field], in one commit: the documents left are the
    others, in their order, none of them has the term, and the document
    count goes down by the number of documents that had it. When no
    document has the term the documents stay as they are. *)
Theorem remove_document_exact (X : Externals) (value field : string)
    (optimize : bool) (e : Env) (h : Handle) (i : Index) :
  ix (self e) = Some h ->
  lookup_index e h = Some i ->
  NoDup (map docnum (ix_docs i)) ->
  exists i',
    fst (remove_document X value field optimize e) = Ok tt
    /\ lookup_index (snd (remove_document X value field optimize e)) h = Some i'
    /\ self (snd (remove_document X value field optimize e)) = self e
    /\ ix_schema i' = ix_schema i
    /\ ix_docs i'
       = List.filter (fun d => negb (has_term field value d)) (ix_docs i)
    /\ (forall d, In d (ix_docs i') -> has_term field value d = false)
    /\ doc_count i'
       = doc_count i
         - Z.of_nat (length (List.filter (has_term field value) (ix_docs i)))
    /\ (List.filter (has_term field value) (ix_docs i) = [] ->
        ix_docs i' = ix_docs i).
Proof.
  intros Hix Hi Hnd. unfold remove_document.
  rewrite (bind_ok _ _ _ _ _ (get_ix_ok _ _ Hix)).
  rewrite (bind_ok _ _ _ _ _ (read_toc_ok _ _ _ Hi)).
  set (writer := fold_left (fun i d => delete_document (docnum d) i)
                           (List.filter (has_term field value) (ix_docs i)) i).
  destruct (commit_ok X h optimize i writer e Hi)
    as (e' & i' & Hc & Hlook & Hself & Hdocs & Hsch & _).
  rewrite Hc. cbn [fst snd]. exists i'.
  assert (Hkept : ix_docs i'
                  = List.filter (fun d => negb (has_term field value d)) (ix_docs i)).
  { rewrite Hdocs. apply delete_matches. exact Hnd. }
  pose proof (filter_split_length (has_term field value) (ix_docs i)) as Hlen.
  split; [reflexivity|]. split; [exact Hlook|]. split; [exact Hself|].
  split; [rewrite Hsch; apply delete_documents_schema|].
  split; [exact Hkept|]. split; [|split].
  - intros d Hd. rewrite Hkept in Hd. apply List.filter_In in Hd as [_ Hd].
    now apply negb_true_iff in Hd.
  - unfold doc_count. rewrite Hkept. lia.
  - intros Hnone. rewrite Hkept. rewrite Hnone in Hlen. cbn [length] in Hlen.
    clear - Hlen. induction (ix_docs i) as [|d l IH]; [reflexivity|].
    cbn [List.filter length] in *. destruct (has_term field value d); cbn [negb] in *.
    + pose proof (List.filter_length_le (fun d => negb (has_term field value d)) l).
      lia.
    + f_equal. apply IH. cbn [length] in Hlen. lia.
Qed.

Lemma remove_document_exact_witness :
  exists i',
    lookup_index (snd (remove_document demo_externals "d1" "id" false
                            (disk_env demo_index [])))
                 (mkHandle (FileStorage "/data") "myindex") = Some i'
    /\ doc_count i' = doc_count demo_index - 1.
Proof.
  destruct (remove_document_exact demo_externals "d1" "id" false
              (disk_env demo_index [])
              (mkHandle (FileStorage "/data") "myindex") demo_index
              eq_refl eq_refl
              ltac:(apply (bool_decide_unpack _); vm_compute; exact I))
    as (i' & _ & Hl & _ & _ & _ & _ & Hc & _).
  exists i'. split; [exact Hl|exact Hc].
Defined.

(** ** Deleting by prefix, again *)




(** ** Creating an index and finding it again *)

Lemma normal_path_truthy (path : string) :
  normal_path path = true -> str_truthy path = true.
Proof. destruct path; [discriminate|reflexivity]. Qed.

Lemma initialize_index_run (path name : string) (schema : option Schema) (e : Env) :
  str_truthy path = true ->
  str_truthy name = true ->
  lookup_index e (mkHandle (FileStorage path) name) = None ->
  exists st d0 sch,
    initialize_index path name schema e
    = (Ok (mkHandle (FileStorage path) name),
       set_disk (<[path := <[name := empty_index sch]> st]> d0) e)
    /\ (schema = None -> sch = DEFAULT_SCHEMA)
    /\ (forall s f fs, schema = Some s -> fields s = f :: fs -> sch = s)
    /\ (forall n, n <> name ->
          st !! n = lookup_index e (mkHandle (FileStorage path) n)).
Proof.
  intros Hpath Hname Hnone. unfold initialize_index.
  set (sch := match schema with
              | Some s => match fields s with [] => default_schema | _ :: _ => s end
              | None => default_schema
              end).
  rewrite (bind_ok _ _ _ _ _ (exists_in_dir e path name)). rewrite Hnone.
  cbn [is_some]. unfold bind at 1, os_path_exists.
  assert (Hsch1 : schema = None -> sch = DEFAULT_SCHEMA) by (intros ->; reflexivity).
  assert (Hsch2 : forall s f fs, schema = Some s -> fields s = f :: fs -> sch = s).
  { intros s f fs -> Hf. subst sch. cbn. now rewrite Hf. }
  destruct (disk e !! path) as [st|] eqn:Hd; cbn [is_some negb].
  - exists st, (disk e), sch. unfold bind at 1, ret. unfold create_in. rewrite Hname.
    unfold bind, write_toc, storage_of, ret. cbn [h_storage h_name]. rewrite Hd.
    split; [reflexivity|]. split; [exact Hsch1|]. split; [exact Hsch2|].
    intros n _. unfold lookup_index, storage_of. cbn [h_storage h_name].
    now rewrite Hd.
  - exists ∅, (fold_left mkdir_missing (ancestors EmptyString path) (disk e)), sch.
    unfold bind at 1, os_makedirs. rewrite Hpath, Hd. cbn [negb].
    unfold create_in. rewrite Hname.
    unfold bind, write_toc, storage_of, ret. cbn [h_storage h_name set_disk disk].
    rewrite lookup_insert_eq. unfold set_disk. cbn [self disk ram warnings stdin
      provider_calls uuid_count].
    rewrite insert_insert_eq.
    split; [reflexivity|]. split; [exact Hsch1|]. split; [exact Hsch2|].
    intros n _. unfold lookup_index, storage_of. cbn [h_storage h_name].
    rewrite Hd. apply lookup_empty.
Qed.

(** [initialize_index(path, name, schema)] for a directory path in normal
    form and a non-empty name, where no index of that name is in the
    directory (the directory is made if it is missing): it returns the
    new index, which is empty and has the given schema, or the default
    schema when none is given; [index_exists_in] and [open_dir] then find
    it; the in-memory storages and the store object are as before; and a
    second [initialize_index] on the same directory and name is refused
    with a [ValueError], whatever the schema. With the empty path, which
    names no directory, the call fails with the [FileNotFoundError] of
    [os.makedirs] and creates nothing. *)
Theorem initialize_index_creates (path name : string) (schema : option Schema)
    (e : Env) :
  normal_path path = true ->
  str_truthy name = true ->
  lookup_index e (mkHandle (FileStorage path) name) = None ->
  fst (initialize_index path name schema e)
  = Ok (mkHandle (FileStorage path) name)
  /\ (exists sch,
        lookup_index (snd (initialize_index path name schema e))
                     (mkHandle (FileStorage path) name) = Some (empty_index sch)
        /\ (schema = None -> sch = DEFAULT_SCHEMA)
        /\ (forall s f fs, schema = Some s -> fields s = f :: fs -> sch = s))
  /\ index_exists_in path (Some name) (snd (initialize_index path name schema e))
     = (Ok true, snd (initialize_index path name schema e))
  /\ open_dir path name (snd (initialize_index path name schema e))
     = (Ok (mkHandle (FileStorage path) name),
        snd (initialize_index path name schema e))
  /\ ram (snd (initialize_index path name schema e)) = ram e
  /\ self (snd (initialize_index path name schema e)) = self e
  /\ (forall schema', exists msg,
        initialize_index path name schema'
                         (snd (initialize_index path name schema e))
        = (Raise (ValueError msg), snd (initialize_index path name schema e)))
  /\ (disk e !! EmptyString = None ->
      initialize_index EmptyString name schema e = (Raise FileNotFoundError, e)).
Proof.
  intros Hpath Hname Hnone.
  destruct (initialize_index_run path name schema e
              (normal_path_truthy path Hpath) Hname Hnone)
    as (st & d0 & sch & Hrun & Hs1 & Hs2 & _).
  rewrite Hrun. cbn [fst snd].
  set (e' := set_disk (<[path := <[name := empty_index sch]> st]> d0) e).
  assert (Hlook : lookup_index e' (mkHandle (FileStorage path) name)
                  = Some (empty_index sch)).
  { unfold lookup_index, storage_of, e', set_disk. cbn [h_storage h_name disk].
    now rewrite !lookup_insert_eq. }
  split; [reflexivity|]. split; [now exists sch|]. split; [|split].
  - unfold index_exists_in. now rewrite exists_in_dir, Hlook.
  - unfold open_dir, bind, read_toc, ret. now rewrite Hlook.
  - split; [reflexivity|]. split; [reflexivity|]. split.
    + intros schema'. unfold initialize_index. eexists.
      rewrite (bind_ok _ _ _ _ _ (exists_in_dir e' path name)). rewrite Hlook.
      reflexivity.
    + intros Hroot. unfold initialize_index.
      rewrite (bind_ok _ _ _ _ _ (exists_in_dir e EmptyString name)).
      unfold lookup_index, storage_of. cbn [h_storage h_name]. rewrite Hroot.
      cbn [is_some]. unfold bind, os_path_exists, os_makedirs. rewrite Hroot.
      reflexivity.
Qed.

Lemma initialize_index_creates_witness :
  fst (initialize_index "/new/store" "idx" None blank_env)
  = Ok (mkHandle (FileStorage "/new/store") "idx")
  /\ index_exists_in "/new/store" (Some "idx")
       (snd (initialize_index "/new/store" "idx" None blank_env))
     = (Ok true, snd (initialize_index "/new/store" "idx" None blank_env))
  /\ initialize_index EmptyString "idx" None blank_env
     = (Raise FileNotFoundError, blank_env).
Proof.
  destruct (initialize_index_creates "/new/store" "idx" None blank_env
              eq_refl eq_refl eq_refl)
    as (H1 & _ & H3 & _ & _ & _ & _ & H8).
  split; [exact H1|]. split; [exact H3|exact (H8 eq_refl)].
Defined.

(** ** Building a store *)


Lemma init_on_existing_run (X : Externals) (d name : string)
    (kwargs emb : list (string * PyVal)) (e : Env) (i : Index) :
  str_truthy d = true -> str_truthy name = true ->
  init_embedding_model X kwargs = Ok emb ->
  lookup_index e (mkHandle (FileStorage d) name) = Some i ->
  __init__ X (Some d) name kwargs e
  = (Ok tt,
     mkEnv (mkStore (Some d) name (Some (mkHandle (FileStorage d) name)) (Some emb))
           (disk e) (ram e) (warnings e) (stdin e) (provider_calls e)
           (uuid_count e)).
Proof.
  intros Hd Hname Hemb Hi. unfold __init__.
  unfold bind at 1, set_self. cbn [opt_str_truthy]. rewrite Hd, Hname.
  cbn [negb andb].
  set (e0 := mkEnv (mkStore (Some d) name None None) (disk e) (ram e) (warnings e)
                   (stdin e) (provider_calls e) (uuid_count e)).
  assert (Hi0 : lookup_index e0 (mkHandle (FileStorage d) name) = Some i) by exact Hi.
  unfold bind at 1. unfold bind at 1.
  rewrite (exists_in_dir e0 d name), Hi0. cbn [is_some negb].
  unfold bind at 1, open_dir, bind at 1, read_toc. rewrite Hi0.
  unfold ret, assign_ix, bind, get_self, set_self, lift, assign_embeddings,
    bind, get_self, set_self.
  cbn. now rewrite Hemb.
Qed.

Lemma init_on_missing_run (X : Externals) (d name : string)
    (kwargs emb : list (string * PyVal)) (e : Env) :
  str_truthy d = true -> str_truthy name = true ->
  init_embedding_model X kwargs = Ok emb ->
  lookup_index e (mkHandle (FileStorage d) name) = None ->
  exists st d0,
    __init__ X (Some d) name kwargs e
    = (Ok tt,
       mkEnv (mkStore (Some d) name (Some (mkHandle (FileStorage d) name)) (Some emb))
             (<[d := <[name := empty_index DEFAULT_SCHEMA]> st]> d0)
             (ram e) (warnings e) (stdin e) (provider_calls e) (uuid_count e)).
Proof.
  intros Hd Hname Hemb Hnone. unfold __init__.
  unfold bind at 1, set_self. cbn [opt_str_truthy]. rewrite Hd, Hname.
  cbn [negb andb].
  set (e0 := mkEnv (mkStore (Some d) name None None) (disk e) (ram e) (warnings e)
                   (stdin e) (provider_calls e) (uuid_count e)).
  assert (Hn0 : lookup_index e0 (mkHandle (FileStorage d) name) = None) by exact Hnone.
  unfold bind at 1. unfold bind at 1.
  rewrite (exists_in_dir e0 d name), Hn0. cbn [is_some negb].
  destruct (initialize_index_run d name None e0 Hd Hname Hn0)
    as (st & d0 & sch & Hrun & Hsch & _ & _).
  rewrite (Hsch eq_refl) in Hrun.
  exists st, d0. rewrite (bind_ok _ _ _ _ _ Hrun).
  unfold assign_ix, bind, get_self, set_self, lift, assign_embeddings,
    bind, get_self, set_self.
  cbn. now rewrite Hemb.
Qed.

(** Building a store on a directory, given by a path in normal form, with
    a non-empty index name (the embedding set-up of the base class
    succeeding). Where an index of that name exists in the directory the
    store attaches to it and nothing on disk changes. Where none exists an
    empty index with the default schema is created under that name. Either
    way [self.ix] refers to that directory and name, no warning is issued,
    no in-memory storage is created, and nothing is read from standard
    input. *)
Theorem store_on_directory (X : Externals) (d name : string)
    (kwargs emb : list (string * PyVal)) (e : Env) :
  normal_path d = true -> str_truthy name = true ->
  init_embedding_model X kwargs = Ok emb ->
  fst (__init__ X (Some d) name kwargs e) = Ok tt
  /\ self (snd (__init__ X (Some d) name kwargs e))
     = mkStore (Some d) name (Some (mkHandle (FileStorage d) name)) (Some emb)
  /\ warnings (snd (__init__ X (Some d) name kwargs e)) = warnings e
  /\ ram (snd (__init__ X (Some d) name kwargs e)) = ram e
  /\ stdin (snd (__init__ X (Some d) name kwargs e)) = stdin e
  /\ (forall i, lookup_index e (mkHandle (FileStorage d) name) = Some i ->
        disk (snd (__init__ X (Some d) name kwargs e)) = disk e)
  /\ (lookup_index e (mkHandle (FileStorage d) name) = None ->
        lookup_index (snd (__init__ X (Some d) name kwargs e))
                     (mkHandle (FileStorage d) name)
        = Some (empty_index DEFAULT_SCHEMA)).
Proof.
  intros Hnormal Hname Hemb.
  pose proof (normal_path_truthy d Hnormal) as Hd.
  destruct (lookup_index e (mkHandle (FileStorage d) name)) as [i|] eqn:Hi.
  - rewrite (init_on_existing_run X d name kwargs emb e i Hd Hname Hemb Hi).
    cbn [fst snd self warnings ram stdin disk]. repeat split; try reflexivity.
    discriminate.
  - destruct (init_on_missing_run X d name kwargs emb e Hd Hname Hemb Hi)
      as (st & d0 & Hrun).
    rewrite Hrun. cbn [fst snd self warnings ram stdin disk].
    split; [reflexivity|]. split; [reflexivity|]. split; [reflexivity|].
    split; [reflexivity|]. split; [reflexivity|].
    split; [discriminate|]. intros _.
    unfold lookup_index, storage_of. cbn [h_storage h_name disk].
    now rewrite !lookup_insert_eq.
Qed.

Lemma store_on_directory_witness :
  fst (__init__ demo_externals (Some "/data") "myindex" [] (disk_env demo_index []))
  = Ok tt
  /\ disk (snd (__init__ demo_externals (Some "/data") "myindex" []
                         (disk_env demo_index [])))
     = disk (disk_env demo_index [])
  /\ lookup_index (snd (__init__ demo_externals (Some "/new/store") "idx" []
                                 blank_env))
                  (mkHandle (FileStorage "/new/store") "idx")
     = Some (empty_index DEFAULT_SCHEMA).
Proof.
  pose proof (store_on_directory demo_externals "/data" "myindex" [] []
                (disk_env demo_index []) eq_refl eq_refl eq_refl)
    as (H1 & _ & _ & _ & _ & H6 & _).
  pose proof (store_on_directory demo_externals "/new/store" "idx" [] [] blank_env
                eq_refl eq_refl eq_refl) as (_ & _ & _ & _ & _ & _ & H7).
  split; [exact H1|]. split; [exact (H6 demo_index eq_refl)|exact (H7 eq_refl)].
Defined.




(** ** The record that is indexed for a document *)

Lemma endswith_app (k s : string) : endswith (k ++ s) s = true.
Proof.
  induction k as [|c k IH]; [apply endswith_refl|].
  change (String c k ++ s) with (String c (k ++ s)).
  rewrite endswith_cons, IH. apply orb_true_r.
Qed.

Lemma doc2dict_run (X : Externals) (doc : Document) (e : Env) (h : Handle)
    (i : Index) :
  ix (self e) = Some h -> lookup_index e h = Some i ->
  doc2dict X doc e
  = (Ok (add_search_fields
           (<["page_content" := VStr (nfkc X (page_content doc))]>
              (<["id" := if truthy (dict_get (metadata doc) "id" (VStr EmptyString))
                         then dict_get (metadata doc) "id" (VStr EmptyString)
                         else VStr (uuid4_hex X (uuid_count e))]>
                 (doc2dict_loop (stored_names (ix_schema i)) (metadata doc))))),
     mkEnv (self e) (disk e) (ram e) (warnings e) (stdin e) (provider_calls e)
           (if truthy (dict_get (metadata doc) "id" (VStr EmptyString))
            then uuid_count e else S (uuid_count e))).
Proof.
  intros Hix Hi. unfold doc2dict.
  rewrite (bind_ok _ _ _ _ _ (get_ix_ok _ _ Hix)).
  rewrite (bind_ok _ _ _ _ _ (read_toc_ok _ _ _ Hi)).
  destruct (truthy (dict_get (metadata doc) "id" (VStr EmptyString))) eqn:Hid;
    cbn [negb]; unfold bind, fresh_uuid, ret, normalize_text;
    [now destruct e|reflexivity].
Qed.

Lemma typed_key_step (names : list string) (d : gmap string PyVal)
    (kv : string * PyVal) :
  (forall key v, d !! key = Some v -> typed_key names key v = true) ->
  forall key v, doc2dict_step names d kv !! key = Some v ->
                typed_key names key v = true.
Proof.
  intros Hd key v. destruct kv as [k w]. unfold doc2dict_step. cbn [fst snd].
  destruct (suffix_of names k w) as [suffix|] eqn:Hs; [|apply Hd].
  destruct (decide (k ++ suffix = key)) as [<-|Hne];
    [|rewrite lookup_insert_ne by exact Hne; apply Hd].
  rewrite lookup_insert_eq. intros [= <-].
  unfold suffix_of in Hs. unfold typed_key.
  destruct (str_in k names) eqn:Hin.
  { injection Hs as <-. rewrite append_empty_r, Hin. reflexivity. }
  destruct w as [|b|z|q|t|o]; cbn [isinstance_bool isinstance_str
    isinstance_int_float] in Hs; try discriminate.
  - destruct (endswith k "_b") eqn:E; cbn [negb] in Hs; injection Hs as <-.
    + rewrite append_empty_r, E. cbn. now rewrite orb_true_r.
    + rewrite endswith_app. cbn. now rewrite orb_true_r.
  - destruct (endswith k "_n") eqn:E; cbn [negb] in Hs; injection Hs as <-.
    + rewrite append_empty_r, E. cbn. now rewrite !orb_true_r.
    + rewrite endswith_app. cbn. now rewrite !orb_true_r.
  - destruct (endswith k "_n") eqn:E; cbn [negb] in Hs; injection Hs as <-.
    + rewrite append_empty_r, E. cbn. now rewrite !orb_true_r.
    + rewrite endswith_app. cbn. now rewrite !orb_true_r.
  - destruct (endswith k "_date") eqn:D.
    + injection Hs as <-. rewrite endswith_app. cbn. now rewrite !orb_true_r.
    + destruct (endswith k "_k") eqn:E; cbn [negb] in Hs; injection Hs as <-.
      * rewrite append_empty_r, E. cbn. now rewrite !orb_true_r.
      * rewrite endswith_app. cbn. now rewrite !orb_true_r.
Qed.

Lemma typed_key_loop (names : list string) (md : list (string * PyVal)) :
  forall key v, doc2dict_loop names md !! key = Some v ->
                typed_key names key v = true.
Proof.
  induction md as [|kv md IH] using rev_ind.
  - intros key v H. unfold doc2dict_loop in H. cbn in H.
    rewrite lookup_empty in H. discriminate.
  - rewrite doc2dict_loop_snoc. now apply typed_key_step.
Qed.

Lemma typed_key_default (key : string) (v : PyVal) :
  typed_key (stored_names DEFAULT_SCHEMA) key v = true ->
  schema_has DEFAULT_SCHEMA key = true.
Proof.
  unfold typed_key, schema_has. intros H.
  change (map fst (fields DEFAULT_SCHEMA)) with (stored_names DEFAULT_SCHEMA).
  destruct (str_in key (stored_names DEFAULT_SCHEMA)); [reflexivity|].
  cbn [orb] in H |- *.
  cbn [existsb dynamic_fields DEFAULT_SCHEMA fst glob_match].
  destruct (endswith key "_k"), (endswith key "_b"), (endswith key "_n"),
    (endswith key "_d"); cbn in H |- *;
    rewrite ?orb_true_r; try reflexivity; discriminate.
Qed.

(** What [doc2dict] puts under the keys it sets itself, on a store whose
    index can be read. The record always has the document's text,
    normalised, under [page_content], whatever the metadata held under
    that key. Its [id] is the metadata's [id] when that is truthy, and no
    random identifier is drawn; otherwise it is a fresh random identifier
    (also when the metadata holds an empty or zero [id]). When the record
    has a [source], [source_search] is a copy of it, and likewise
    [filepath_search] of [filepath]. The conversion writes to no index and
    does not change the store object. *)
Theorem doc2dict_record (X : Externals) (doc : Document) (e : Env)
    (h : Handle) (i : Index) :
  ix (self e) = Some h -> lookup_index e h = Some i ->
  exists d e',
    doc2dict X doc e = (Ok d, e')
    /\ d !! "page_content" = Some (VStr (nfkc X (page_content doc)))
    /\ (truthy (dict_get (metadata doc) "id" (VStr EmptyString)) = true ->
        d !! "id" = Some (dict_get (metadata doc) "id" (VStr EmptyString))
        /\ e' = e)
    /\ (truthy (dict_get (metadata doc) "id" (VStr EmptyString)) = false ->
        d !! "id" = Some (VStr (uuid4_hex X (uuid_count e)))
        /\ uuid_count e' = S (uuid_count e))
    /\ (forall v, d !! "source" = Some v -> d !! "source_search" = Some v)
    /\ (forall v, d !! "filepath" = Some v -> d !! "filepath_search" = Some v)
    /\ self e' = self e /\ disk e' = disk e /\ ram e' = ram e
    /\ provider_calls e' = provider_calls e.
Proof.
  intros Hix Hi. rewrite (doc2dict_run X doc e h i Hix Hi).
  eexists _, _. split; [reflexivity|].
  set (given := dict_get (metadata doc) "id" (VStr EmptyString)).
  set (inner := <["page_content" := _]> (<["id" := _]> _)).
  split; [|split; [|split; [|split; [|split]]]].
  - rewrite lookup_add_search_fields by discriminate.
    subst inner. now rewrite lookup_insert_eq.
  - intros Ht. rewrite lookup_add_search_fields by discriminate.
    subst inner. rewrite lookup_insert_ne by discriminate.
    rewrite lookup_insert_eq, Ht. split; [reflexivity|]. now destruct e.
  - intros Hf. rewrite lookup_add_search_fields by discriminate.
    subst inner. rewrite lookup_insert_ne by discriminate.
    rewrite lookup_insert_eq, Hf. split; reflexivity.
  - intros v. rewrite lookup_add_search_fields by discriminate.
    intros Hv. unfold add_search_fields. rewrite Hv.
    destruct (<["source_search" := v]> inner !! "filepath");
      [rewrite lookup_insert_ne by discriminate|]; now rewrite lookup_insert_eq.
  - intros v. rewrite lookup_add_search_fields by discriminate.
    intros Hv. unfold add_search_fields.
    destruct (inner !! "source") as [w|].
    + rewrite lookup_insert_ne by discriminate. rewrite Hv.
      now rewrite lookup_insert_eq.
    + rewrite Hv. now rewrite lookup_insert_eq.
  - repeat split.
Qed.

Lemma doc2dict_record_witness :
  exists d e',
    doc2dict demo_externals
             (mkDocument "some text" [("id", VStr EmptyString);
                                      ("source", VStr "/a/x.pdf")])
             (disk_env demo_index [])
    = (Ok d, e')
    /\ d !! "id" = Some (VStr (demo_uuid 0))
    /\ (forall v, d !! "source" = Some v -> d !! "source_search" = Some v)
    /\ uuid_count e' = 1%nat.
Proof.
  destruct (doc2dict_record demo_externals
              (mkDocument "some text" [("id", VStr EmptyString);
                                       ("source", VStr "/a/x.pdf")])
              (disk_env demo_index [])
              (mkHandle (FileStorage "/data") "myindex") demo_index
              eq_refl eq_refl)
    as (d & e' & Hrun & _ & _ & Hfresh & Hsrc & _).
  exists d, e'. split; [exact Hrun|].
  destruct (Hfresh eq_refl) as [Hid Hcount].
  split; [exact Hid|]. split; [exact Hsrc|exact Hcount].
Defined.

(** The keys of the record [doc2dict] builds, on a store whose index can
    be read. Apart from [id], [page_content], [source_search] and
    [filepath_search], every key is a stored field name of the schema, or
    carries the suffix of its value's type: [_b] with a boolean, [_d] or
    [_k] with a string, [_n] with an integer or a float. Under
    [DEFAULT_SCHEMA] every key of the record is therefore a field of the
    schema, declared or dynamic. *)
Theorem doc2dict_typed_keys (X : Externals) (doc : Document) (e : Env)
    (h : Handle) (i : Index) :
  ix (self e) = Some h -> lookup_index e h = Some i ->
  exists d e',
    doc2dict X doc e = (Ok d, e')
    /\ (forall key v, d !! key = Some v ->
          key = "id" \/ key = "page_content" \/ key = "source_search"
          \/ key = "filepath_search"
          \/ typed_key (stored_names (ix_schema i)) key v = true)
    /\ (ix_schema i = DEFAULT_SCHEMA ->
        forall key v, d !! key = Some v -> schema_has DEFAULT_SCHEMA key = true).
Proof.
  intros Hix Hi. rewrite (doc2dict_run X doc e h i Hix Hi).
  eexists _, _. split; [reflexivity|].
  set (inner := <["page_content" := _]> (<["id" := _]> _)).
  assert (Hkeys : forall key v, add_search_fields inner !! key = Some v ->
            key = "id" \/ key = "page_content" \/ key = "source_search"
            \/ key = "filepath_search"
            \/ typed_key (stored_names (ix_schema i)) key v = true).
  { intros key v Hv.
    destruct (decide (key = "id")) as [->|N1]; [now left|].
    destruct (decide (key = "page_content")) as [->|N2]; [now right; left|].
    destruct (decide (key = "source_search")) as [->|N3];
      [now right; right; left|].
    destruct (decide (key = "filepath_search")) as [->|N4];
      [now right; right; right; left|].
    right; right; right; right.
    rewrite lookup_add_search_fields in Hv by assumption.
    subst inner. rewrite !lookup_insert_ne in Hv by congruence.
    now apply typed_key_loop in Hv. }
  split; [exact Hkeys|].
  intros Hsch key v Hv. rewrite Hsch in Hkeys.
  destruct (Hkeys key v Hv) as [->|[->|[->|[->|Ht]]]]; try reflexivity.
  now apply typed_key_default in Ht.
Qed.

Lemma doc2dict_typed_keys_witness :
  exists d e',
    doc2dict demo_externals
             (mkDocument "some text" [("year", VInt 2020); ("draft", VBool true);
                                      ("author", VStr "ann")])
             (disk_env demo_index [])
    = (Ok d, e')
    /\ forall key v, d !! key = Some v -> schema_has DEFAULT_SCHEMA key = true.
Proof.
  destruct (doc2dict_typed_keys demo_externals
              (mkDocument "some text" [("year", VInt 2020); ("draft", VBool true);
                                       ("author", VStr "ann")])
              (disk_env demo_index [])
              (mkHandle (FileStorage "/data") "myindex") demo_index
              eq_refl eq_refl)
    as (d & e' & Hrun & _ & Hsch).
  exists d, e'. split; [exact Hrun|exact (Hsch eq_refl)].
Defined.

(** ** Highlighting a hit *)

Lemma process_result_eq X q fields return_dict r :
  process_result X q fields true return_dict r
  = obind (fold_left (highlight_step X q r) fields (Ok (stored_fields r)))
          (fun d => Ok (as_hit X return_dict d)).
Proof. reflexivity. Qed.

Lemma highlight_fold_raise X q r fields x :
  fold_left (highlight_step X q r) fields (Raise x) = Raise x.
Proof. induction fields as [|f fields IH]; [reflexivity|exact IH]. Qed.

Lemma hl_key_inj (f f' : string) : "hl_" ++ f = "hl_" ++ f' -> f = f'.
Proof. intros H. now injection H. Qed.

Lemma highlight_fold_ok X q r fields :
  (forall f, In f fields -> stored_fields r !! f <> None) ->
  forall d0, exists d,
    fold_left (highlight_step X q r) fields (Ok d0) = Ok d
    /\ (forall key, (forall f, In f fields -> key <> "hl_" ++ f) ->
          d !! key = d0 !! key)
    /\ (forall f, In f fields ->
          d !! ("hl_" ++ f) = highlight_entry X q r f (d0 !! ("hl_" ++ f))).
Proof.
  induction fields as [|f0 fields IH]; intros Hall d0.
  - exists d0. split; [reflexivity|]. split; [reflexivity|]. intros f [].
  - assert (Hstep : exists d1,
      highlight_step X q r (Ok d0) f0 = Ok d1
      /\ (forall key, key <> "hl_" ++ f0 -> d1 !! key = d0 !! key)
      /\ d1 !! ("hl_" ++ f0) = highlight_entry X q r f0 (d0 !! ("hl_" ++ f0))).
    { unfold highlight_step, highlight_entry. cbn [obind].
      destruct (stored_fields r !! f0) as [v|] eqn:Hv;
        [|exfalso; apply (Hall f0); [now left|exact Hv]].
      destruct v as [| | | |text|];
        try (exists d0; split; [reflexivity|split; [reflexivity|reflexivity]]).
      destruct (str_truthy text);
        [|exists d0; split; [reflexivity|split; reflexivity]].
      eexists. split; [reflexivity|]. split.
      - intros key Hk. now rewrite lookup_insert_ne by congruence.
      - now rewrite lookup_insert_eq. }
    destruct Hstep as (d1 & Hs & Hother & Hentry).
    destruct (IH (fun f Hf => Hall f (or_intror Hf)) d1) as (d & Hd & Hkeys & Hhl).
    exists d. cbn [fold_left]. rewrite Hs. split; [exact Hd|]. split.
    + intros key Hk. rewrite Hkeys by (intros f Hf; apply Hk; now right).
      apply Hother. apply Hk. now left.
    + intros f Hf.
      destruct (in_dec string_dec f fields) as [Hin|Hnin].
      * rewrite (Hhl f Hin).
        destruct (string_dec f f0) as [->|Hne].
        -- rewrite Hentry. unfold highlight_entry.
           destruct (stored_fields r !! f0) as [[| | | |text|]|]; try reflexivity.
           now destruct (str_truthy text).
        -- rewrite Hother; [reflexivity|].
           intros Heq. apply Hne. now apply hl_key_inj.
      * destruct Hf as [<-|Hf]; [|contradiction].
        rewrite Hkeys; [exact Hentry|].
        intros f Hf Heq. apply hl_key_inj in Heq. subst f. contradiction.
Qed.

Lemma highlight_fold_missing X q r fields :
  (exists f, In f fields /\ stored_fields r !! f = None) ->
  forall d0, exists f,
    In f fields /\ stored_fields r !! f = None
    /\ fold_left (highlight_step X q r) fields (Ok d0) = Raise (KeyError f).
Proof.
  induction fields as [|f0 fields IH]; intros (f & Hf & Hnone) d0;
    [destruct Hf|].
  cbn [fold_left].
  destruct (stored_fields r !! f0) as [v|] eqn:Hv.
  - assert (Hrest : exists f, In f fields /\ stored_fields r !! f = None).
    { destruct Hf as [<-|Hf]; [congruence|now exists f]. }
    assert (Hstep : exists d1, highlight_step X q r (Ok d0) f0 = Ok d1).
    { unfold highlight_step. cbn [obind]. rewrite Hv.
      destruct v as [| | | |text|]; try (eexists; reflexivity).
      destruct (str_truthy text); eexists; reflexivity. }
    destruct Hstep as (d1 & ->).
    destruct (IH Hrest d1) as (f' & Hf' & Hn' & Hfold).
    exists f'. split; [now right|]. split; [exact Hn'|exact Hfold].
  - exists f0. split; [now left|]. split; [exact Hv|].
    unfold highlight_step at 2. cbn [obind]. rewrite Hv.
    apply highlight_fold_raise.
Qed.

(** What [process_result] makes of a hit. Without highlighting it is the
    hit's stored fields. With highlighting, when every searched field is
    stored in the hit, it is the stored fields with, for each searched
    field [f] holding a non-empty string, an entry [hl_f] that is the
    highlighter's text or, where that is empty, the field's own value, so
    never an empty string; an empty or non-string field gets no entry; and
    every other key keeps its stored value. When a searched field is not
    stored in the hit, processing raises [KeyError] for such a field. *)
Theorem process_result_highlights (X : Externals) (q : string)
    (fields : list string) (return_dict : bool) (r : IxDoc) :
  process_result X q fields false return_dict r
  = Ok (as_hit X return_dict (stored_fields r))
  /\ ((forall f, In f fields -> stored_fields r !! f <> None) ->
      exists d,
        process_result X q fields true return_dict r = Ok (as_hit X return_dict d)
        /\ (forall key, (forall f, In f fields -> key <> "hl_" ++ f) ->
              d !! key = stored_fields r !! key)
        /\ (forall f text, In f fields ->
              stored_fields r !! f = Some (VStr text) ->
              str_truthy text = true ->
              exists hl, d !! ("hl_" ++ f) = Some (VStr hl)
                         /\ str_truthy hl = true
                         /\ (hl = highlights X q r f \/ hl = text))
        /\ (forall f v, In f fields ->
              stored_fields r !! f = Some v ->
              (forall text, v = VStr text -> str_truthy text = false) ->
              d !! ("hl_" ++ f) = stored_fields r !! ("hl_" ++ f)))
  /\ (forall f, In f fields -> stored_fields r !! f = None ->
      exists f', In f' fields /\ stored_fields r !! f' = None
                 /\ process_result X q fields true return_dict r
                    = Raise (KeyError f')).
Proof.
  split; [reflexivity|]. split.
  - intros Hall.
    destruct (highlight_fold_ok X q r fields Hall (stored_fields r))
      as (d & Hd & Hkeys & Hhl).
    exists d. rewrite process_result_eq, Hd. split; [reflexivity|].
    split; [exact Hkeys|]. split.
    + intros f text Hf Hv Ht. rewrite (Hhl f Hf). unfold highlight_entry.
      rewrite Hv, Ht.
      destruct (str_truthy (highlights X q r f)) eqn:Hh; eexists;
        (split; [reflexivity|]); (split; [assumption|]); [now left|now right].
    + intros f v Hf Hv Hplain. rewrite (Hhl f Hf). unfold highlight_entry.
      rewrite Hv. destruct v as [| | | |text|]; try reflexivity.
      now rewrite (Hplain text eq_refl).
  - intros f Hf Hnone.
    destruct (highlight_fold_missing X q r fields
                (ex_intro _ f (conj Hf Hnone)) (stored_fields r))
      as (f' & Hf' & Hn' & Hfold).
    exists f'. rewrite process_result_eq, Hfold. now repeat split.
Qed.

Lemma process_result_highlights_witness :
  (exists d,
     process_result demo_externals "cat" ["page_content"] true true
                    (demo_doc 0 "d0" "/a/b/x.pdf" "the cat sat" ["the"; "cat"; "sat"])
     = Ok (as_hit demo_externals true d)
     /\ exists hl, d !! ("hl_" ++ "page_content") = Some (VStr hl)
                   /\ str_truthy hl = true)
  /\ exists f',
       process_result demo_externals "cat" ["title"] true true
                      (demo_doc 0 "d0" "/a/b/x.pdf" "the cat sat" ["the"; "cat"; "sat"])
       = Raise (KeyError f').
Proof.
  pose proof (process_result_highlights demo_externals "cat" ["page_content"] true
                (demo_doc 0 "d0" "/a/b/x.pdf" "the cat sat" ["the"; "cat"; "sat"]))
    as (_ & Hok & _).
  pose proof (process_result_highlights demo_externals "cat" ["title"] true
                (demo_doc 0 "d0" "/a/b/x.pdf" "the cat sat" ["the"; "cat"; "sat"]))
    as (_ & _ & Hmiss).
  split.
  - destruct Hok as (d & Hd & _ & Hhl & _).
    { intros f [<-|[]]. vm_compute. discriminate. }
    exists d. split; [exact Hd|].
    destruct (Hhl "page_content" "the cat sat" (or_introl eq_refl) eq_refl eq_refl)
      as (hl & H1 & H2 & _).
    exists hl. now split.
  - destruct (Hmiss "title" (or_introl eq_refl) eq_refl) as (f' & _ & _ & Hr).
    now exists f'.
Defined.

(** ** The documents a query iterates over *)

Lemma query_on_selected X i parsed q fields highlight limit page return_dict flt
    return_generator :
  query_on X i parsed q fields highlight limit page return_dict flt
           return_generator
  = obind (selected_docs i parsed limit page flt) (fun dt =>
      if return_generator then
        Ok (mkQueryResult
              (HitGenerator
                 (map (process_result X q fields highlight return_dict) (fst dt)))
              (snd dt))
      else
        obind (omap (process_result X q fields highlight return_dict) (fst dt))
              (fun hs => Ok (mkQueryResult (HitList hs) (snd dt)))).
Proof.
  unfold query_on, selected_docs.
  destruct (if page =? 1 then _ else _) as [results|x]; cbn [obind]; [|reflexivity].
  destruct (ceil_div (sr_scored_length results) limit) as [pages|x];
    cbn [obind fst snd]; reflexivity.
Qed.

Lemma gtb_min (page c : Z) : (page >? Z.min c page) = (page >? c).
Proof.
  rewrite !Z.gtb_ltb.
  destruct (Z.ltb_spec (Z.min c page) page), (Z.ltb_spec c page);
    try reflexivity; lia.
Qed.

(** The documents iterated over are the [page]-th run of [limit] matches,
    or none past the last page. *)
Lemma selected_docs_eq i parsed limit page flt c :
  1 <= limit -> 1 <= page ->
  ceil_div (Z.of_nat (length (matching i parsed flt))) limit = Ok c ->
  selected_docs i parsed limit page flt
  = Ok (if page >? c then []
        else firstn (Z.to_nat limit)
                    (skipn (Z.to_nat ((page - 1) * limit)) (matching i parsed flt)),
        Z.min (Z.of_nat (length (matching i parsed flt))) (page * limit)).
Proof.
  intros Hl Hp Hc. unfold selected_docs, search_page, search, results_page.
  set (matched := matching i parsed flt) in *.
  set (N := Z.of_nat (length matched)) in *.
  destruct (page =? 1) eqn:Hp1.
  - apply Z.eqb_eq in Hp1. subst page.
    destruct (limit <? 1) eqn:E; [apply Z.ltb_lt in E; lia|].
    cbn [obind sr_scored_length sr_iter]. unfold scored_length. cbn [top_n].
    rewrite scored_length_firstn by lia. fold N.
    replace (Z.min N limit) with (Z.min N (1 * limit)) by (f_equal; lia).
    rewrite (ceil_div_le N limit c 1 ltac:(lia) Hc). cbn [obind].
    rewrite gtb_min.
    change (Z.to_nat ((1 - 1) * limit)) with 0%nat. now rewrite skipn_O.
  - destruct (page <? 1) eqn:E1; [apply Z.ltb_lt in E1; lia|].
    destruct (page * limit <? 1) eqn:E2; [apply Z.ltb_lt in E2; nia|].
    cbn [obind]. unfold results_len. cbn [docset]. fold N.
    rewrite Hc. cbn [obind sr_scored_length rp_results sr_iter rp_offset rp_pagelen].
    unfold scored_length. cbn [top_n].
    rewrite scored_length_firstn by nia. fold N.
    rewrite (ceil_div_le N limit c page ltac:(lia) Hc). cbn [obind].
    rewrite gtb_min.
    destruct (page >? c) eqn:Hgt; [reflexivity|].
    assert (Hpc : page <= c)
      by (rewrite Z.gtb_ltb in Hgt; apply Z.ltb_ge in Hgt; exact Hgt).
    pose proof (page_window matched limit page c Hl Hp Hc Hpc) as Hwin.
    cbv zeta in Hwin. fold N in Hwin. now rewrite Hwin.
Qed.

Lemma In_skipn_In {A} (n : nat) (l : list A) (x : A) :
  In x (skipn n l) -> In x l.
Proof.
  revert l. induction n as [|n IH]; intros [|y l]; cbn [skipn In]; try tauto.
  intros H. right. now apply IH.
Qed.

Lemma consume_generator {A} (f : A -> Outcome Hit) (l : list A) :
  consume (HitGenerator (map f l)) = omap f l.
Proof.
  unfold consume. induction l as [|x l IH]; [reflexivity|].
  cbn [map omap]. destruct (f x); cbn [obind]; [|reflexivity].
  now rewrite IH.
Qed.

(** Every call of [query], in any state of the store. *)
Lemma query_general X q fields highlight limit page return_dict filters
    where_document return_generator e :
  query X q fields highlight limit page return_dict filters where_document
        return_generator e
  = (match ix (self e) with
     | None => Raise (AttributeError "ix")
     | Some h =>
         match lookup_index e h with
         | None => Raise EmptyIndexError
         | Some i =>
             obind (parse X (ix_schema i) fields (compose_query q where_document))
                   (fun parsed =>
                      query_on X i parsed (compose_query q where_document) fields
                               highlight limit page return_dict
                               (compose_filter filters) return_generator)
         end
     end, e).
Proof.
  destruct (ix (self e)) as [h|] eqn:Hix.
  2:{ unfold query. cbv beta iota delta [bind get_ix get_self ret raise].
      now rewrite Hix. }
  destruct (lookup_index e h) as [i|] eqn:Hi.
  2:{ unfold query. rewrite (bind_ok _ _ _ _ _ (get_ix_ok _ _ Hix)).
      unfold bind at 1, read_toc. now rewrite Hi. }
  destruct (parse X (ix_schema i) fields (compose_query q where_document))
    as [parsed|x] eqn:Hparse.
  2:{ unfold query. rewrite (bind_ok _ _ _ _ _ (get_ix_ok _ _ Hix)).
      rewrite (bind_ok _ _ _ _ _ (read_toc_ok _ _ _ Hi)).
      unfold bind at 1, lift, get_search_results. now rewrite Hparse. }
  now rewrite (query_eq _ _ _ _ _ _ _ _ _ _ _ _ _ _ Hix Hi Hparse).
Qed.

(** The hits of a query and its filters. Whenever [query] returns, on a
    readable index and a query text the parser accepts, its hits are the
    processed forms, in order, of documents that the parsed query matches
    and that pass the filter: with [filters] given, each of these
    documents has, for every entry [k: v] of [filters], the term [v] in
    the field [k]; with [filters] empty or [None] nothing is filtered.
    There are at most [limit] hits, and no more than [total_hits]. *)
Theorem query_hits_pass_filters (X : Externals) (q : string)
    (fields : list string) (highlight : bool) (limit page : Z)
    (return_dict : bool) (filters : option (list (string * string)))
    (where_document : option string) (return_generator : bool) (e : Env)
    (h : Handle) (i : Index) (parsed : Query) (r : QueryResult) (e' : Env) :
  ix (self e) = Some h ->
  lookup_index e h = Some i ->
  parse X (ix_schema i) fields (compose_query q where_document) = Ok parsed ->
  query X q fields highlight limit page return_dict filters where_document
        return_generator e = (Ok r, e') ->
  exists docs,
    consume (hits r)
    = omap (process_result X (compose_query q where_document) fields highlight
                           return_dict) docs
    /\ n_hits (hits r) = length docs
    /\ Z.of_nat (length docs) <= limit
    /\ Z.of_nat (length docs) <= total_hits r
    /\ (forall d, In d docs -> In d (parsed (ix_docs i)))
    /\ (forall fs d k v, filters = Some fs -> In d docs -> In (k, v) fs ->
          has_term k v d = true)
    /\ (filters = None \/ filters = Some [] ->
        forall d, In d docs ->
                  In d (firstn (Z.to_nat (page * limit)) (parsed (ix_docs i)))).
Proof.
  intros Hix Hi Hparse Hq.
  rewrite (query_eq _ _ _ _ _ _ _ _ _ _ _ _ _ _ Hix Hi Hparse) in Hq.
  injection Hq as Hon _.
  destruct (query_on_total_hits _ _ _ _ _ _ _ _ _ _ _ _ Hon) as (Hl & Hp & Htot).
  rewrite query_on_selected in Hon.
  set (flt := compose_filter filters) in *.
  set (matched := matching i parsed flt) in *.
  destruct (ceil_div_pos (Z.of_nat (length matched)) limit ltac:(lia))
    as (c & Hc & Hc1 & Hc2).
  rewrite (selected_docs_eq i parsed limit page flt c Hl Hp Hc) in Hon.
  cbn [obind fst snd] in Hon. fold matched in Hon.
  set (docs := if page >? c then []
               else firstn (Z.to_nat limit)
                           (skipn (Z.to_nat ((page - 1) * limit)) matched)) in *.
  assert (Hsub : forall d, In d docs -> In d matched).
  { intros d Hd. subst docs. destruct (page >? c); [destruct Hd|].
    apply In_firstn_In in Hd. now apply In_skipn_In in Hd. }
  assert (Hlen1 : Z.of_nat (length docs) <= limit).
  { subst docs. destruct (page >? c); [cbn; lia|]. rewrite length_firstn. lia. }
  assert (Hlen2 : Z.of_nat (length docs)
                  <= Z.min (Z.of_nat (length matched)) (page * limit)).
  { subst docs. destruct (page >? c) eqn:Hgt; [cbn; lia|].
    rewrite length_firstn, length_skipn. nia. }
  assert (Hwin : forall d, In d docs ->
            In d (firstn (Z.to_nat (page * limit)) matched)).
  { intros d Hd. subst docs. destruct (page >? c); [destruct Hd|].
    replace (Z.to_nat (page * limit))
      with (Z.to_nat ((page - 1) * limit) + Z.to_nat limit)%nat by nia.
    rewrite <- (firstn_skipn (Z.to_nat ((page - 1) * limit)) matched) at 1.
    rewrite firstn_app, length_firstn.
    apply in_or_app. right.
    destruct (Nat.le_gt_cases (Z.to_nat ((page - 1) * limit)) (length matched))
      as [Hle|Hgt].
    - replace (Z.to_nat ((page - 1) * limit) + Z.to_nat limit
               - Nat.min (Z.to_nat ((page - 1) * limit)) (length matched))%nat
        with (Z.to_nat limit) by lia.
      exact Hd.
    - rewrite skipn_all2 in Hd by lia. now destruct (Z.to_nat limit). }
  exists docs.
  assert (Hform : consume (hits r)
                  = omap (process_result X (compose_query q where_document) fields
                                         highlight return_dict) docs
                  /\ n_hits (hits r) = length docs
                  /\ total_hits r = Z.min (Z.of_nat (length matched)) (page * limit)).
  { destruct return_generator.
    - injection Hon as <-. cbn [hits total_hits n_hits].
      rewrite consume_generator, length_map. now repeat split.
    - destruct (omap _ docs) as [hs|x] eqn:Hhs; cbn [obind] in Hon; [|discriminate].
      injection Hon as <-. cbn [hits total_hits n_hits consume].
      apply omap_length in Hhs. now repeat split. }
  destruct Hform as (Hcons & Hn & Ht).
  split; [exact Hcons|]. split; [exact Hn|]. split; [exact Hlen1|].
  split; [rewrite Ht; exact Hlen2|]. split; [|split].
  - intros d Hd. apply Hsub in Hd. subst matched. unfold matching in Hd.
    now apply List.filter_In in Hd as [Hd _].
  - intros fs d k v Hf Hd Hkv. apply Hsub in Hd. subst matched. unfold matching in Hd.
    apply List.filter_In in Hd as [_ Hpass].
    subst flt filters. destruct fs as [|kv fs]; [destruct Hkv|].
    cbn [compose_filter passes] in Hpass.
    rewrite forallb_forall in Hpass. exact (Hpass (k, v) Hkv).
  - intros Hnone d Hd. apply Hwin in Hd.
    assert (Hall : matched = parsed (ix_docs i)).
    { subst matched flt. unfold matching.
      destruct Hnone as [-> | ->]; cbn [compose_filter passes]; apply filter_all. }
    now rewrite <- Hall.
Qed.

Lemma query_hits_pass_filters_witness :
  exists r docs,
    fst (query demo_externals "cat" ["page_content"] true 10 1 true
               (Some [("source", "/a/b/y.pdf")]) None false
               (disk_env demo_index [])) = Ok r
    /\ n_hits (hits r) = length docs
    /\ forall d, In d docs -> has_term "source" "/a/b/y.pdf" d = true.
Proof.
  destruct (query demo_externals "cat" ["page_content"] true 10 1 true
                  (Some [("source", "/a/b/y.pdf")]) None false
                  (disk_env demo_index [])) as [[r|x] e'] eqn:Hq;
    [|vm_compute in Hq; discriminate].
  destruct (query_hits_pass_filters demo_externals "cat" ["page_content"] true 10 1
              true (Some [("source", "/a/b/y.pdf")]) None false
              (disk_env demo_index [])
              (mkHandle (FileStorage "/data") "myindex") demo_index
              (List.filter (fun d => existsb (fun f => has_term f "cat" d)
                                             ["page_content"]))
              r e' eq_refl eq_refl eq_refl Hq)
    as (docs & _ & Hn & _ & _ & _ & Hflt & _).
  exists r, docs. split; [reflexivity|]. split; [exact Hn|].
  intros d Hd. apply (Hflt [("source", "/a/b/y.pdf")] d); [reflexivity|exact Hd|].
  now left.
Defined.

(** ** A generator of hits *)

(** Asking [query] for a generator changes when the hits are processed
    and nothing else. Neither form of the call changes any state. Running
    the generator to its end gives the hits of the list form and the same
    [total_hits], or fails with the exception the list form raises: when
    the list form returns, the generator form returns a generator of as
    many hits that yields exactly them; when the generator form raises,
    the list form raises the same exception. *)
Theorem query_generator_agrees (X : Externals) (q : string)
    (fields : list string) (highlight : bool) (limit page : Z)
    (return_dict : bool) (filters : option (list (string * string)))
    (where_document : option string) (e : Env) :
  snd (query X q fields highlight limit page return_dict filters where_document
             false e) = e
  /\ snd (query X q fields highlight limit page return_dict filters
                where_document true e) = e
  /\ obind (fst (query X q fields highlight limit page return_dict filters
                       where_document true e))
           (fun r => obind (consume (hits r)) (fun l => Ok (l, total_hits r)))
     = obind (fst (query X q fields highlight limit page return_dict filters
                         where_document false e))
             (fun r => obind (consume (hits r)) (fun l => Ok (l, total_hits r)))
  /\ (forall r,
        fst (query X q fields highlight limit page return_dict filters
                   where_document false e) = Ok r ->
        exists rg,
          fst (query X q fields highlight limit page return_dict filters
                     where_document true e) = Ok rg
          /\ total_hits rg = total_hits r
          /\ n_hits (hits rg) = n_hits (hits r)
          /\ consume (hits rg) = consume (hits r))
  /\ (forall x,
        fst (query X q fields highlight limit page return_dict filters
                   where_document true e) = Raise x ->
        fst (query X q fields highlight limit page return_dict filters
                   where_document false e) = Raise x).
Proof.
  rewrite !query_general. cbn [fst snd].
  split; [reflexivity|]. split; [reflexivity|].
  destruct (ix (self e)) as [h|];
    [|split; [reflexivity|split; [discriminate|now intros x H]]].
  destruct (lookup_index e h) as [i|];
    [|split; [reflexivity|split; [discriminate|now intros x H]]].
  destruct (parse X (ix_schema i) fields (compose_query q where_document))
    as [parsed|x]; cbn [obind];
    [|split; [reflexivity|split; [discriminate|now intros x' H]]].
  rewrite !query_on_selected.
  destruct (selected_docs i parsed limit page (compose_filter filters))
    as [[docs total]|x]; cbn [obind fst snd];
    [|split; [reflexivity|split; [discriminate|now intros x' H]]].
  cbn [hits total_hits]. rewrite consume_generator.
  destruct (omap _ docs) as [hs|x] eqn:Hhs; cbn [obind hits total_hits consume].
  - split; [reflexivity|]. split; [|discriminate].
    intros r [= <-]. eexists. split; [reflexivity|].
    cbn [hits total_hits n_hits]. rewrite consume_generator, length_map.
    split; [reflexivity|]. split; [|exact Hhs].
    now apply omap_length in Hhs.
  - split; [reflexivity|]. split; discriminate.
Qed.

(** ** Listing the indexed records *)

Lemma get_all_docs_eq (e : Env) :
  get_all_docs e
  = (match ix (self e) with
     | Some h =>
         match lookup_index e h with
         | Some i => Ok (map stored_fields (ix_docs i))
         | None => Raise EmptyIndexError
         end
     | None => Raise (AttributeError "ix")
     end, e).
Proof.
  cbv beta iota delta [get_all_docs bind get_ix get_self ret raise read_toc].
  destruct (ix (self e)) as [h|]; [|reflexivity].
  destruct (lookup_index e h); reflexivity.
Qed.

Lemma remove_document_run (X : Externals) (value field : string)
    (optimize : bool) (e : Env) (h : Handle) (i : Index) :
  ix (self e) = Some h -> lookup_index e h = Some i ->
  NoDup (map docnum (ix_docs i)) ->
  exists e' i',
    remove_document X value field optimize e = (Ok tt, e')
    /\ ix (self e') = Some h
    /\ lookup_index e' h = Some i'
    /\ ix_docs i'
       = List.filter (fun d => negb (has_term field value d)) (ix_docs i).
Proof.
  intros Hix Hi Hnd. unfold remove_document.
  rewrite (bind_ok _ _ _ _ _ (get_ix_ok _ _ Hix)).
  rewrite (bind_ok _ _ _ _ _ (read_toc_ok _ _ _ Hi)).
  destruct (commit_ok X h optimize i
              (fold_left (fun i d => delete_document (docnum d) i)
                         (List.filter (has_term field value) (ix_docs i)) i)
              e Hi) as (e' & i' & Hc & Hlook & Hself & Hdocs & _ & _).
  exists e', i'. split; [exact Hc|]. split; [now rewrite Hself|].
  split; [exact Hlook|]. rewrite Hdocs. now apply delete_matches.
Qed.

(** [get_all_docs] yields the stored fields of the live documents, in
    document order, and changes nothing. It yields as many records as
    [get_size()] counts and fails exactly when [get_size()] fails. After
    [remove_document(value, field)] it yields the records it yielded
    before, without those of the documents that had the term. *)
Theorem get_all_docs_records (X : Externals) (e : Env) :
  snd (get_all_docs e) = e
  /\ (forall l, fst (get_all_docs e) = Ok l ->
        fst (get_size false e) = Ok (Z.of_nat (length l)))
  /\ (forall x, fst (get_all_docs e) = Raise x <-> fst (get_size false e) = Raise x)
  /\ (forall value field optimize h i,
        ix (self e) = Some h -> lookup_index e h = Some i ->
        NoDup (map docnum (ix_docs i)) ->
        fst (get_all_docs e) = Ok (map stored_fields (ix_docs i))
        /\ fst (get_all_docs (snd (remove_document X value field optimize e)))
           = Ok (map stored_fields
                   (List.filter (fun d => negb (has_term field value d))
                                (ix_docs i)))).
Proof.
  rewrite get_all_docs_eq, get_size_eq. cbn [fst snd].
  split; [reflexivity|]. split; [|split].
  - destruct (ix (self e)) as [h|]; [|discriminate].
    destruct (lookup_index e h) as [i|]; [|discriminate].
    intros l [= <-]. unfold doc_count. now rewrite length_map.
  - intros x. destruct (ix (self e)) as [h|]; [|split; intros [= <-]; reflexivity].
    destruct (lookup_index e h) as [i|]; [|split; intros [= <-]; reflexivity].
    split; discriminate.
  - intros value field optimize h i Hix Hi Hnd. rewrite Hix, Hi.
    split; [reflexivity|].
    destruct (remove_document_run X value field optimize e h i Hix Hi Hnd)
      as (e' & i' & Hrun & Hix' & Hi' & Hdocs).
    rewrite Hrun. cbn [snd]. rewrite get_all_docs_eq. cbn [fst].
    now rewrite Hix', Hi', Hdocs.
Qed.

Lemma get_all_docs_records_witness :
  fst (get_all_docs (disk_env demo_index [])) = Ok (map stored_fields demo_docs)
  /\ fst (get_size false (disk_env demo_index [])) = Ok 3
  /\ obind (fst (get_all_docs
                   (snd (remove_document demo_externals "d1" "id" false
                           (disk_env demo_index [])))))
           (fun l => Ok (length l))
     = Ok 2%nat.
Proof.
  pose proof (get_all_docs_records demo_externals (disk_env demo_index [])) as (_ & Hsize & _ & Hrm).
  assert (Hnd : NoDup (map docnum (ix_docs demo_index))).
  { apply (bool_decide_unpack _). vm_compute. exact I. }
  destruct (Hrm "d1" "id" false (mkHandle (FileStorage "/data") "myindex")
                demo_index eq_refl eq_refl Hnd) as [Hall Hafter].
  split; [exact Hall|]. split; [exact (Hsize _ Hall)|].
  rewrite Hafter. reflexivity.
Defined.

(** ** The size of a semantic search's answer *)

Lemma py_slice_length {A} (l : list A) (k : Z) :
  Z.of_nat (length (py_slice l 0 k))
  = if k <? 0 then Z.max 0 (Z.of_nat (length l) + k)
    else Z.min k (Z.of_nat (length l)).
Proof.
  unfold py_slice, clip_index.
  destruct (0 <? 0) eqn:E0; [discriminate|].
  replace (Z.to_nat (Z.min 0 (Z.of_nat (length l)))) with 0%nat by lia.
  rewrite skipn_O, length_firstn.
  destruct (k <? 0) eqn:Ek; [apply Z.ltb_lt in Ek|apply Z.ltb_ge in Ek]; lia.
Qed.

(** How many documents [semantic_search] returns, and when it fails. When
    the lexical query it runs raises, it raises the same exception and
    the embedding provider is not called; on a readable index that is so
    for [n_candidates] below 1, which the engine's search refuses. When
    the query returns [n] candidates, the search returns exactly
    [min(k, n)] documents for [k >= 0]; a negative [k] is taken as a
    slice bound counted from the end, so that the [-k] candidates of
    lowest score are left out ([max(0, n + k)] documents are returned).
    The search writes to no index. The embedding provider is taken to
    answer with one score for each candidate. *)
Theorem semantic_search_size (X : Externals) (q : string) (k n_candidates : Z)
    (filters : option (list (string * string)))
    (where_document : option string) (e : Env) :
  (forall x,
     fst (query X q ["page_content"] true n_candidates 1 true filters
                where_document false e) = Raise x ->
     semantic_search X q k n_candidates filters where_document e = (Raise x, e))
  /\ (forall r,
        fst (query X q ["page_content"] true n_candidates 1 true filters
                   where_document false e) = Ok r ->
        exists docs e'',
          semantic_search X q k n_candidates filters where_document e
          = (Ok docs, e'')
          /\ Z.of_nat (length docs)
             = (if k <? 0 then Z.max 0 (Z.of_nat (n_hits (hits r)) + k)
                else Z.min k (Z.of_nat (n_hits (hits r))))
          /\ self e'' = self e /\ disk e'' = disk e /\ ram e'' = ram e)
  /\ (forall h i parsed,
        ix (self e) = Some h -> lookup_index e h = Some i ->
        parse X (ix_schema i) ["page_content"] (compose_query q where_document)
        = Ok parsed ->
        n_candidates < 1 ->
        semantic_search X q k n_candidates filters where_document e
        = (Raise (ValueError "limit must be >= 1"), e)).
Proof.
  assert (Hraise : forall x,
     fst (query X q ["page_content"] true n_candidates 1 true filters
                where_document false e) = Raise x ->
     semantic_search X q k n_candidates filters where_document e = (Raise x, e)).
  { intros x Hx. unfold semantic_search, bind.
    rewrite query_general in Hx |- *. cbn [fst] in Hx. now rewrite Hx. }
  split; [exact Hraise|]. split.
  - intros r Hr.
    assert (Hq : query X q ["page_content"] true n_candidates 1 true filters
                       where_document false e = (Ok r, e)).
    { rewrite query_general in Hr |- *. cbn [fst] in Hr. now rewrite Hr. }
    destruct (query_inv _ _ _ _ _ _ _ _ _ _ _ _ _ Hq)
      as (_ & h & i & parsed & Hix & Hi & Hparse & Hon).
    pose proof (query_on_total_hits _ _ _ _ _ _ _ _ _ _ _ _ Hon) as (Hn & _ & _).
    rewrite (query_on_first_page X i parsed _ _ _ _ _ _ Hn) in Hon.
    destruct (omap _ (firstn (Z.to_nat n_candidates) _)) as [hs|] eqn:Hhs;
      cbn [obind] in Hon; [|discriminate].
    injection Hon as <-.
    destruct (hit_text_pool _ _ _ _ Hhs) as (pool & -> & Hpool & _).
    unfold semantic_search. rewrite (bind_ok _ _ _ _ _ Hq). cbn [hits n_hits].
    rewrite length_map.
    destruct pool as [|dv pool].
    + exists [], e. cbn [map length]. split; [reflexivity|].
      split; [|now repeat split].
      destruct (k <? 0) eqn:Ek; [apply Z.ltb_lt in Ek|apply Z.ltb_ge in Ek]; lia.
    + cbn [map].
      change (HitDict (fst dv) :: map (fun dv => HitDict (fst dv)) pool)
        with (map (fun dv => HitDict (fst dv)) (dv :: pool)) in *.
      set (pool' := dv :: pool) in *.
      unfold bind at 1, lift. rewrite Hpool.
      unfold bind, embed_and_score, ret. rewrite attach_scores_map.
      eexists _, _. split; [reflexivity|]. split; [|now repeat split].
      rewrite length_map, py_slice_length, sorted_desc_length, length_map.
      reflexivity.
  - intros h i parsed Hix Hi Hparse Hlt. apply Hraise.
    rewrite (query_eq _ _ _ _ _ _ _ _ _ _ _ _ _ _ Hix Hi Hparse). cbn [fst].
    unfold query_on, search. cbn [Z.eqb Pos.eqb].
    apply Z.ltb_lt in Hlt. now rewrite Hlt.
Qed.

Lemma semantic_search_size_witness :
  (exists docs e'',
     semantic_search demo_externals "cat" (-1) 50 None None (disk_env demo_index [])
     = (Ok docs, e'')
     /\ Z.of_nat (length docs) = 2)
  /\ semantic_search demo_externals "cat" 4 0 None None (disk_env demo_index [])
     = (Raise (ValueError "limit must be >= 1"), disk_env demo_index []).
Proof.
  pose proof (semantic_search_size demo_externals "cat" (-1) 50 None None
                (disk_env demo_index [])) as (_ & Hok & _).
  pose proof (semantic_search_size demo_externals "cat" 4 0 None None
                (disk_env demo_index [])) as (_ & _ & Hbad).
  split.
  - destruct (query demo_externals "cat" ["page_content"] true 50 1 true None None
                    false (disk_env demo_index [])) as [[r|x] e'] eqn:Hq;
      [|vm_compute in Hq; discriminate].
    destruct (Hok r eq_refl) as (docs & e'' & Hs & Hlen & _).
    exists docs, e''. split; [exact Hs|]. rewrite Hlen.
    assert (Hn : n_hits (hits r) = 3%nat).
    { assert (Hh : obind (fst (query demo_externals "cat" ["page_content"] true 50 1
                                     true None None false (disk_env demo_index [])))
                         (fun r => Ok (n_hits (hits r))) = Ok 3%nat)
        by (vm_compute; reflexivity).
      rewrite Hq in Hh. cbn [fst obind] in Hh. now injection Hh. }
    rewrite Hn. reflexivity.
  - exact (Hbad (mkHandle (FileStorage "/data") "myindex") demo_index
                (List.filter (fun d => existsb (fun f => has_term f "cat" d)
                                               ["page_content"]))
                eq_refl eq_refl eq_refl ltac:(lia)).
Defined.

(** ** Deleting by the empty prefix *)

Lemma filter_id {A} (f : A -> bool) (l : list A) :
  (forall x, In x l -> f x = true) -> List.filter f l = l.
Proof.
  induction l as [|x l IH]; intros H; [reflexivity|].
  cbn [List.filter]. rewrite (H x (or_introl eq_refl)). f_equal.
  apply IH. intros y Hy. apply H. now right.
Qed.

Lemma filter_none {A} (f : A -> bool) (l : list A) :
  (forall x, In x l -> f x = true) -> List.filter (fun x => negb (f x)) l = [].
Proof.
  induction l as [|x l IH]; intros H; [reflexivity|].
  cbn [List.filter]. rewrite (H x (or_introl eq_refl)). cbn [negb].
  apply IH. intros y Hy. apply H. now right.
Qed.

Lemma has_prefix_term_empty (field : string) (d : IxDoc) :
  has_prefix_term field EmptyString d
  = match terms d !! field with
    | Some (_ :: _) => true
    | _ => false
    end.
Proof.
  unfold has_prefix_term. destruct (terms d !! field) as [[|t ts]|]; try reflexivity.
  cbn [existsb]. unfold startswith. now destruct t.
Qed.

(** The empty prefix is a prefix of every term: for a field of the schema
    with a text type, [delete_by_prefix] with an empty prefix deletes every
    document that has any term in the field. On an index whose documents
    all have a term there, it deletes all of them, returns their number
    and leaves an index of size 0; so [remove_source] with an empty source
    removes every document that has a source. *)
Theorem delete_by_empty_prefix (X : Externals) (field : string)
    (optimize : bool) (e : Env) (h : Handle) (i : Index) (f : Field) :
  ix (self e) = Some h ->
  lookup_index e h = Some i ->
  NoDup (map docnum (ix_docs i)) ->
  schema_field (ix_schema i) field = Some f ->
  text_kind (f_kind f) = true ->
  (forall d, In d (ix_docs i) -> exists t ts, terms d !! field = Some (t :: ts)) ->
  fst (delete_by_prefix X EmptyString field optimize e) = Ok (doc_count i)
  /\ fst (get_size false (snd (delete_by_prefix X EmptyString field optimize e)))
     = Ok 0
  /\ fst (get_all_docs (snd (delete_by_prefix X EmptyString field optimize e)))
     = Ok []
  /\ (field = "source" ->
      fst (remove_source X EmptyString optimize e) = Ok (doc_count i)).
Proof.
  intros Hix Hi Hnd Hf Hkind Hterms.
  assert (Hall : forall d, In d (ix_docs i) ->
                           has_prefix_term field EmptyString d = true).
  { intros d Hd. rewrite has_prefix_term_empty.
    now destruct (Hterms d Hd) as (t & ts & ->). }
  assert (Hmain :
    fst (delete_by_prefix X EmptyString field optimize e) = Ok (doc_count i)
    /\ exists e' i',
         snd (delete_by_prefix X EmptyString field optimize e) = e'
         /\ ix (self e') = Some h /\ lookup_index e' h = Some i'
         /\ ix_docs i' = []).
  { rewrite (delete_by_prefix_eq X EmptyString field optimize e h i f EmptyString
               Hix Hi Hf (to_bytes_text X (f_kind f) EmptyString Hkind)).
    cbv zeta.
    assert (Hlen : length (List.filter (has_prefix_term field EmptyString)
                                       (ix_docs i)) = length (ix_docs i))
      by now rewrite (filter_id _ _ Hall).
    rewrite Hlen. fold (doc_count i).
    destruct (0 <? doc_count i) eqn:Hpos.
    - destruct (commit_ok X h optimize i
                  (fold_left (fun i hit => delete_document (docnum hit) i)
                     (List.filter (has_prefix_term field EmptyString) (ix_docs i)) i)
                  e Hi) as (e' & i' & Hc & Hlook & Hself & Hdocs & _ & _).
      rewrite (bind_ok _ _ _ _ _ Hc). cbn [ret fst snd].
      split; [reflexivity|]. exists e', i'.
      split; [reflexivity|]. split; [now rewrite Hself|]. split; [exact Hlook|].
      rewrite Hdocs, (delete_matches _ i Hnd). now apply filter_none.
    - cbn [fst snd]. apply Z.ltb_ge in Hpos. unfold doc_count in *.
      assert (Hnil : ix_docs i = []) by (destruct (ix_docs i); [reflexivity|cbn in Hpos; lia]).
      split; [rewrite Hnil; reflexivity|].
      exists e, i. now repeat split. }
  destruct Hmain as (Hret & e' & i' & He' & Hix' & Hi' & Hdocs).
  split; [exact Hret|]. rewrite He'. split; [|split].
  - rewrite get_size_eq. cbn [fst]. rewrite Hix', Hi'. unfold doc_count.
    now rewrite Hdocs.
  - rewrite get_all_docs_eq. cbn [fst]. now rewrite Hix', Hi', Hdocs.
  - intros ->. exact Hret.
Qed.

Lemma delete_by_empty_prefix_witness :
  fst (remove_source demo_externals EmptyString false (disk_env demo_index []))
  = Ok 3
  /\ fst (get_size false
            (snd (delete_by_prefix demo_externals EmptyString "source" false
                    (disk_env demo_index [])))) = Ok 0.
Proof.
  assert (Hterms : forall d, In d (ix_docs demo_index) ->
                     exists t ts, terms d !! "source" = Some (t :: ts)).
  { intros d [<-|[<-|[<-|[]]]]; eexists _, _; vm_compute; reflexivity. }
  destruct (delete_by_empty_prefix demo_externals "source" false
              (disk_env demo_index [])
              (mkHandle (FileStorage "/data") "myindex") demo_index
              (stored (KEYWORD true))
              eq_refl eq_refl
              ltac:(apply (bool_decide_unpack _); vm_compute; exact I)
              eq_refl eq_refl
              Hterms) as (_ & Hsize & _ & Hsrc).
  split; [exact (Hsrc eq_refl)|exact Hsize].
Defined.

(** ** Looking a document up by its id *)








